(** * nba_stats.players: the loading, cleaning and cross-referencing pipeline

    A shallow embedding of [src/nba_stats/players.py] (class [Statistics]) and
    the properties of it that the specification states.

    Layout:
    - [Py]: Python's [str] and the [re] calls the source makes;
    - [Pd]: the pandas operations the source composes, on a small model of
      [DataFrame] and [Series];
    - [Players]: the source itself, one definition per function of the file;
    - the notions the statements use, and sample inputs;
    - the properties, by component: the text sanitizer, the frame
      operations, the loaded tables, the source reader, the inductee table,
      the difference with a dataset, the corrected spelling;
    - further properties: the scraped inductee table, the correction, the
      rows of the difference.

    Text.  A Python [str] is modelled as a Rocq [string] whose characters are
    the code points below 256; the character classes [\d], [\s] and [\w] are
    the ones Python's [re] uses for [str] patterns, cut to that range.

    Values.  A cell of a table is [option string]: [None] is pandas' NaN, and
    a number is kept as the text it was read from (the properties below
    concern names, categories and row counts, never arithmetic on cells).
    A date of an index is written as its text in ISO form. *)

From Stdlib Require Import String Ascii List Arith Bool Lia Sorted.
From Equations Require Import Equations.
Import ListNotations.
Local Open Scope list_scope.
Local Open Scope string_scope.

(** * Errors and the error monad *)

(** The exceptions the pipeline can end in.  [HTTPError] is the only one the
    source catches ([except urllib.error.HTTPError]). *)
Inductive error : Type :=
| HTTPError               (* urllib.error.HTTPError *)
| OSError                 (* any other failure of a fetch or of opening a file *)
| ParserError             (* pandas.errors.ParserError: the shape of the records *)
| ValueError              (* a field that cannot be read at its column's dtype *)
| OverflowError           (* an integer beyond the column's range *)
| TypeError               (* an index column that could not be read as dates *)
| InvalidIndexError       (* alignment on an index with a repeated label *)
| KeyError                (* [drop] of a label that is not there *)
| UndefinedVariableError  (* [query] of a name that is not a column *)
| AttributeError.         (* an attribute that is not there *)

Definition result (A : Type) : Type := (error + A)%type.

Definition ok {A : Type} (a : A) : result A := inr a.
Definition raise {A : Type} (e : error) : result A := inl e.

Definition bind {A B : Type} (m : result A) (k : A -> result B) : result B :=
  match m with
  | inl e => inl e
  | inr a => k a
  end.

Notation "x <- m ;; k" := (bind m (fun x => k))
  (at level 61, m at next level, right associativity).

(** [[f(x) for x in l]] where [f] may raise: the first exception wins. *)
Fixpoint mapM {A B : Type} (f : A -> result B) (l : list A) : result (list B) :=
  match l with
  | [] => ok []
  | a :: l' => b <- f a ;; bs <- mapM f l' ;; ok (b :: bs)
  end.

(** * Python text *)

Module Py.

Definition nl : ascii := "010"%char.

Definition code (c : ascii) : nat := nat_of_ascii c.

Definition between (lo hi : nat) (c : ascii) : bool :=
  (Nat.leb lo (code c) && Nat.leb (code c) hi)%bool.

(** [\d]: a decimal digit (Unicode category Nd; below 256 these are 0-9). *)
Definition is_digit (c : ascii) : bool := between 48 57 c.

(** [\s]: Unicode whitespace; below 256 these are TAB..CR, FS..US, SPACE,
    NEL and NBSP. *)
Definition is_space (c : ascii) : bool :=
  (between 9 13 c || between 28 32 c
   || Nat.eqb (code c) 133 || Nat.eqb (code c) 160)%bool.

(** [\w]: alphanumeric ([str.isalnum]) or underscore; below 256 these are the
    ASCII letters and digits, [_], and the Latin-1 letters, superscript
    digits and vulgar fractions. *)
Definition is_word (c : ascii) : bool :=
  (between 48 57 c || between 65 90 c || between 97 122 c
   || Nat.eqb (code c) 95
   || Nat.eqb (code c) 170 || between 178 179 c || Nat.eqb (code c) 181
   || between 185 186 c || between 188 190 c
   || between 192 214 c || between 216 246 c || between 248 255 c)%bool.

Definition is_comma (c : ascii) : bool := Ascii.eqb c ","%char.

(** [s.startswith(p)], returning what follows the prefix. *)
Fixpoint strip_prefix (p s : string) : option string :=
  match p, s with
  | EmptyString, _ => Some s
  | String a p', String b s' =>
      if Ascii.eqb a b then strip_prefix p' s' else None
  | String _ _, EmptyString => None
  end.

(** [c in s]. *)
Fixpoint contains_char (c : ascii) (s : string) : bool :=
  match s with
  | EmptyString => false
  | String a s' => (Ascii.eqb a c || contains_char c s')%bool
  end.

(** [p in s] for a substring [p]. *)
Fixpoint contains (p s : string) : bool :=
  match strip_prefix p s with
  | Some _ => true
  | None =>
      match s with
      | EmptyString => false
      | String _ s' => contains p s'
      end
  end.

(** [s.split(sep)] for a one-character separator: never an empty list. *)
Fixpoint split_on (sep : ascii) (s : string) : list string :=
  match s with
  | EmptyString => [EmptyString]
  | String c s' =>
      if Ascii.eqb c sep then EmptyString :: split_on sep s'
      else match split_on sep s' with
           | h :: t => String c h :: t
           | [] => [String c EmptyString]
           end
  end.

(** [sep.join(l)]. *)
Fixpoint join (sep : string) (l : list string) : string :=
  match l with
  | [] => EmptyString
  | [s] => s
  | s :: l' => s ++ sep ++ join sep l'
  end.

(** [s.count(c)] for a character. *)
Fixpoint count_char (c : ascii) (s : string) : nat :=
  match s with
  | EmptyString => 0
  | String a s' => (if Ascii.eqb a c then 1 else 0) + count_char c s'
  end.

(** [s.endswith("\n")]. *)
Fixpoint ends_with_nl (s : string) : bool :=
  match s with
  | EmptyString => false
  | String c EmptyString => Ascii.eqb c nl
  | String _ s' => ends_with_nl s'
  end.

(** ** Regular expressions

    A compiled pattern is modelled by its matcher at one position of the
    subject: given whether the position is at the beginning of a line (what
    [^] tests under [re.MULTILINE]: the start of the text, or just after a
    newline) and the text from the position on, it returns the matched text
    (group 0), the captured groups and the text after the match, or [None].
    Every pattern of the source consumes at least one character, which the
    record carries: the scanners below resume after the match. *)

Record pattern : Type := {
  match_at : bool -> string -> option (string * list string * string);
  match_at_split : forall bol s m g r,
    match_at bol s = Some (m, g, r) -> s = m ++ r /\ m <> EmptyString
}.

Definition inspect {A : Type} (a : A) : {b : A | a = b} := exist _ a eq_refl.

(** The scan shared by [re.sub], [re.findall] and [str.replace]: leftmost
    matches, left to right, never overlapping.  A match is reported as
    [inr groups], a character outside every match as [inl c]. *)
Equations? scan (p : pattern) (bol : bool) (s : string) :
  list (ascii + list string) by wf (String.length s) lt :=
  scan p bol EmptyString := [];
  scan p bol (String c s') with inspect (match_at p bol (String c s')) => {
    | exist _ (Some (m, g, r)) _ := inr g :: scan p (ends_with_nl m) r;
    | exist _ None _ := inl c :: scan p (Ascii.eqb c nl) s' }.
Proof.
  destruct (match_at_split p bol _ m g r e) as [E N].
  apply (f_equal String.length) in E. simpl in E. rewrite E.
  destruct m as [|a m]; [congruence|].
  simpl. clear. induction m as [|b m IH]; simpl; lia.
Qed.

(** [re.sub(p, repl, s)] for a replacement without group references. *)
Fixpoint emit (repl : string) (l : list (ascii + list string)) : string :=
  match l with
  | [] => EmptyString
  | inl c :: l' => String c (emit repl l')
  | inr _ :: l' => repl ++ emit repl l'
  end.

Definition re_sub (p : pattern) (repl : string) (s : string) : string :=
  emit repl (scan p true s).

(** [re.findall(p, s)]: the groups of every match. *)
Fixpoint groups (l : list (ascii + list string)) : list (list string) :=
  match l with
  | [] => []
  | inl _ :: l' => groups l'
  | inr g :: l' => g :: groups l'
  end.

Definition re_findall (p : pattern) (s : string) : list (list string) :=
  groups (scan p true s).

(** ** The patterns of the source *)

(** A greedy run [x*] of a character class: the longest prefix in the class,
    and what follows it. *)
Fixpoint span (f : ascii -> bool) (s : string) : string * string :=
  match s with
  | EmptyString => (EmptyString, EmptyString)
  | String c s' =>
      if f c then let (a, b) := span f s' in (String c a, b)
      else (EmptyString, s)
  end.

(** [$] under [re.MULTILINE]: at the end of the text or just before a
    newline. *)
Definition at_eol (s : string) : bool :=
  match s with
  | EmptyString => true
  | String c _ => Ascii.eqb c nl
  end.

(** [r'^\d+,+$'] with [flags=re.MULTILINE].  Both runs are greedy and the
    matcher does not backtrack into them: a run that gave back a character
    would leave a digit in front of [,+], or a comma in front of [$]
    ([match_artifact_complete] below shows nothing is lost). *)
Definition match_artifact (bol : bool) (s : string) :
  option (string * list string * string) :=
  if bol then
    let (ds, r1) := span is_digit s in
    let (cs, r2) := span is_comma r1 in
    match ds, cs with
    | String _ _, String _ _ =>
        if at_eol r2 then Some (ds ++ cs, [], r2) else None
    | _, _ => None
    end
  else None.

Lemma span_split f s : s = fst (span f s) ++ snd (span f s).
Proof.
  induction s as [|c s IH]; simpl; [reflexivity|].
  destruct (f c); [|reflexivity].
  destruct (span f s) as [a b]; simpl in *. now rewrite <- IH.
Qed.

Lemma append_assoc (a b c : string) : (a ++ b) ++ c = a ++ b ++ c.
Proof. induction a as [|x a IH]; simpl; [reflexivity|now rewrite IH]. Qed.

Lemma match_artifact_split bol s m g r :
  match_artifact bol s = Some (m, g, r) -> s = m ++ r /\ m <> EmptyString.
Proof.
  unfold match_artifact. destruct bol; [|discriminate].
  pose proof (span_split is_digit s) as E1.
  destruct (span is_digit s) as [ds r1]; simpl in E1.
  pose proof (span_split is_comma r1) as E2.
  destruct (span is_comma r1) as [cs r2]; simpl in E2.
  destruct ds as [|d ds]; [discriminate|].
  destruct cs as [|c cs]; [discriminate|].
  destruct (at_eol r2); [|discriminate].
  intros [= <- <- <-]. split; [|discriminate].
  rewrite E1 at 1. rewrite E2 at 1. simpl. now rewrite append_assoc.
Qed.

Definition artifact : pattern :=
  {| match_at := match_artifact; match_at_split := match_artifact_split |}.

(** A literal pattern, for a text [String c cs] without metacharacters. *)
Definition match_literal (c : ascii) (cs : string) (bol : bool) (s : string) :
  option (string * list string * string) :=
  match strip_prefix (String c cs) s with
  | Some r => Some (String c cs, [], r)
  | None => None
  end.

Lemma strip_prefix_split p s r : strip_prefix p s = Some r -> s = p ++ r.
Proof.
  revert s; induction p as [|a p IH]; intros [|b s]; simpl; try congruence.
  destruct (Ascii.eqb_spec a b) as [->|]; [|discriminate].
  intros H. now rewrite (IH _ H).
Qed.

Lemma match_literal_split c cs bol s m g r :
  match_literal c cs bol s = Some (m, g, r) -> s = m ++ r /\ m <> EmptyString.
Proof.
  unfold match_literal.
  destruct (strip_prefix (String c cs) s) as [r'|] eqn:E; [|discriminate].
  intros [= <- <- <-]. split; [now apply strip_prefix_split|discriminate].
Qed.

Definition literal (c : ascii) (cs : string) : pattern :=
  {| match_at := match_literal c cs;
     match_at_split := match_literal_split c cs |}.

(** One character of a class: [r'\s'], [r','] *)
Definition match_class (f : ascii -> bool) (bol : bool) (s : string) :
  option (string * list string * string) :=
  match s with
  | String c r => if f c then Some (String c EmptyString, [], r) else None
  | EmptyString => None
  end.

Lemma match_class_split f bol s m g r :
  match_class f bol s = Some (m, g, r) -> s = m ++ r /\ m <> EmptyString.
Proof.
  destruct s as [|c s]; simpl; [discriminate|].
  destruct (f c); [|discriminate].
  intros [= <- <- <-]. split; [reflexivity|discriminate].
Qed.

Definition class (f : ascii -> bool) : pattern :=
  {| match_at := match_class f; match_at_split := match_class_split f |}.

(** [r'</?\w>']: a one-letter opening or closing tag.  The optional [/] is
    tried first; without it the next character would have to be a word
    character, which [/] is not. *)
Definition match_tag (bol : bool) (s : string) :
  option (string * list string * string) :=
  match s with
  | String "<" (String "/" (String w (String ">" r))) =>
      if is_word w
      then Some (String "<" (String "/" (String w (String ">" EmptyString))),
                 [], r)
      else None
  | String "<" (String w (String ">" r)) =>
      if is_word w
      then Some (String "<" (String w (String ">" EmptyString)), [], r)
      else None
  | _ => None
  end.

Lemma match_tag_split bol s m g r :
  match_tag bol s = Some (m, g, r) -> s = m ++ r /\ m <> EmptyString.
Proof.
  unfold match_tag. intros H.
  repeat match type of H with
         | match ?x with _ => _ end = _ => destruct x; try discriminate
         | (if ?x then _ else _) = _ => destruct x; try discriminate
         end;
    injection H as <- <- <-; split; (reflexivity || discriminate).
Qed.

Definition tag : pattern :=
  {| match_at := match_tag; match_at_split := match_tag_split |}.

(** A lazy [.+?] followed by the rest of the pattern, [k]: consume one
    character that is not a newline and try [k], which receives the group so
    far and the remaining text; when [k] fails, consume one more. *)
Fixpoint dot_plus_lazy {R : Type} (k : string -> string -> option R)
  (g s : string) : option R :=
  match s with
  | EmptyString => None
  | String c s' =>
      if Ascii.eqb c nl then None
      else match k (g ++ String c EmptyString) s' with
           | Some res => Some res
           | None => dot_plus_lazy k (g ++ String c EmptyString) s'
           end
  end.

(** [r'<p>\s<b>(.+?)</b>(.+?)</p>'] *)
Definition match_member (bol : bool) (s : string) :
  option (string * list string * string) :=
  match strip_prefix "<p>" s with
  | Some (String w r1) =>
      if is_space w then
        match strip_prefix "<b>" r1 with
        | Some r2 =>
            dot_plus_lazy
              (fun g1 t =>
                 match strip_prefix "</b>" t with
                 | Some t1 =>
                     dot_plus_lazy
                       (fun g2 u =>
                          match strip_prefix "</p>" u with
                          | Some u1 =>
                              Some ("<p>" ++ String w "<b>" ++ g1 ++ "</b>"
                                      ++ g2 ++ "</p>",
                                    [g1; g2], u1)
                          | None => None
                          end)
                       EmptyString t1
                 | None => None
                 end)
              EmptyString r2
        | None => None
        end
      else None
  | _ => None
  end.

Lemma dot_plus_lazy_inv {R : Type} (k : string -> string -> option R) g s res :
  dot_plus_lazy k g s = Some res ->
  exists h t, s = h ++ t /\ k (g ++ h) t = Some res.
Proof.
  revert g; induction s as [|c s IH]; intros g; simpl; [discriminate|].
  destruct (Ascii.eqb c nl); [discriminate|].
  destruct (k (g ++ String c EmptyString) s) as [res'|] eqn:E.
  - intros [= <-]. exists (String c EmptyString), s. now split.
  - intros H. destruct (IH _ H) as (h & t & -> & Hk).
    exists (String c h), t. split; [reflexivity|].
    now rewrite append_assoc in Hk.
Qed.

Lemma match_member_split bol s m g r :
  match_member bol s = Some (m, g, r) -> s = m ++ r /\ m <> EmptyString.
Proof.
  unfold match_member.
  destruct (strip_prefix "<p>" s) as [[|w r1]|] eqn:E0; try discriminate.
  destruct (is_space w); [|discriminate].
  destruct (strip_prefix "<b>" r1) as [r2|] eqn:E1; [|discriminate].
  intros H. apply dot_plus_lazy_inv in H. destruct H as (g1 & t & -> & H).
  destruct (strip_prefix "</b>" t) as [t1|] eqn:E2; [|discriminate].
  apply dot_plus_lazy_inv in H. destruct H as (g2 & u & -> & H).
  destruct (strip_prefix "</p>" u) as [u1|] eqn:E3; [|discriminate].
  injection H as <- <- <-.
  apply strip_prefix_split in E0, E1, E2, E3. subst.
  split; [|discriminate]. simpl.
  repeat (rewrite append_assoc; simpl). reflexivity.
Qed.

Definition member : pattern :=
  {| match_at := match_member; match_at_split := match_member_split |}.

(** [s.replace(old, new)]: every occurrence, left to right.  An empty [old]
    matches before every character and at the end. *)
Fixpoint interleave (new s : string) : string :=
  match s with
  | EmptyString => new
  | String c s' => new ++ String c (interleave new s')
  end.

Definition str_replace (old new s : string) : string :=
  match old with
  | EmptyString => interleave new s
  | String c cs => re_sub (literal c cs) new s
  end.

End Py.

(** * pandas *)

Module Pd.

(** A cell: [None] is NaN. *)
Definition cell : Type := option string.

(** Equality as [isin] sees it: NaN matches NaN. *)
Definition cell_eqb (a b : cell) : bool :=
  match a, b with
  | Some x, Some y => String.eqb x y
  | None, None => true
  | _, _ => false
  end.

Definition isna (c : cell) : bool :=
  match c with
  | None => true
  | Some _ => false
  end.

(** A [DataFrame] with index labels of type [I]: the column labels, and the
    rows in order, each with its index label.  An integer column label is
    written as its decimal text. *)
Record DataFrame (I : Type) : Type := {
  columns : list string;
  rows : list (I * list cell)
}.
Arguments columns {I} _.
Arguments rows {I} _.

(** A [Series]: values in order, each with its index label. *)
Definition Series (I : Type) : Type := list (I * cell).

Section Frames.

Context {I : Type}.

(** [s.tolist()], [s.values]. *)
Definition tolist (s : Series I) : list cell := map snd s.

(** [s.unique()]: the distinct values, in order of first appearance. *)
Fixpoint unique_cells (seen l : list cell) : list cell :=
  match l with
  | [] => []
  | c :: l' =>
      if existsb (cell_eqb c) seen then unique_cells seen l'
      else c :: unique_cells (c :: seen) l'
  end.

Definition unique (s : Series I) : list cell := unique_cells [] (tolist s).

(** The position of a column label. *)
Fixpoint get_loc (label : string) (cols : list string) : option nat :=
  match cols with
  | [] => None
  | c :: cols' =>
      if String.eqb c label then Some 0
      else match get_loc label cols' with
           | Some k => Some (S k)
           | None => None
           end
  end.

(** [df.label]: the column, when the frame has one of that label; the
    source reads every column as an attribute. *)
Definition column (label : string) (df : DataFrame I) : result (Series I) :=
  match get_loc label (columns df) with
  | Some k => ok (map (fun r => (fst r, nth k (snd r) None)) (rows df))
  | None => raise AttributeError
  end.

Fixpoint set_nth {A : Type} (k : nat) (a : A) (l : list A) : list A :=
  match k, l with
  | _, [] => []
  | 0, _ :: l' => a :: l'
  | S k', x :: l' => x :: set_nth k' a l'
  end.

(** [df.label = s] for a series [s] on the frame's own index: the values of
    the column are replaced, taken by position.  On a frame without the
    column the assignment sets a plain attribute and the table stays as it
    is. *)
Definition set_column (label : string) (s : Series I) (df : DataFrame I) :
  result (DataFrame I) :=
  match get_loc label (columns df) with
  | Some k =>
      ok {| columns := columns df;
            rows := map (fun rv => (fst (fst rv),
                                    set_nth k (snd rv) (snd (fst rv))))
                        (combine (rows df) (tolist s)) |}
  | None => ok df
  end.

(** [s.str.replace(old, new)]: NaN stays NaN.  (By default a one-character
    pattern is taken literally, and a longer one is a regular expression; the
    source's longer pattern has no metacharacter.) *)
Definition str_replace (old new : string) (s : Series I) : Series I :=
  map (fun v => (fst v, option_map (Py.str_replace old new) (snd v))) s.

Fixpoint remove_nth {A : Type} (k : nat) (l : list A) : list A :=
  match k, l with
  | _, [] => []
  | 0, _ :: l' => l'
  | S k', x :: l' => x :: remove_nth k' l'
  end.

(** [df.drop(label, axis=1)] *)
Definition drop1 (label : string) (df : DataFrame I) : result (DataFrame I) :=
  match get_loc label (columns df) with
  | Some k =>
      ok {| columns := remove_nth k (columns df);
            rows := map (fun r => (fst r, remove_nth k (snd r))) (rows df) |}
  | None => raise KeyError
  end.

(** [df.drop(labels, axis=1)] *)
Fixpoint drop (labels : list string) (df : DataFrame I) :
  result (DataFrame I) :=
  match labels with
  | [] => ok df
  | l :: labels' => df' <- drop1 l df ;; drop labels' df'
  end.

(** [df.dropna(how='all')]: drop the rows whose every cell is NaN. *)
Definition dropna_all (df : DataFrame I) : DataFrame I :=
  {| columns := columns df;
     rows := filter (fun r => negb (forallb isna (snd r))) (rows df) |}.

(** [df.dropna()]: drop the rows with a NaN cell. *)
Definition dropna (df : DataFrame I) : DataFrame I :=
  {| columns := columns df;
     rows := filter (fun r => negb (existsb isna (snd r))) (rows df) |}.

(** [c in values], as [isin] tests it. *)
Definition isin (values : list cell) (c : cell) : bool :=
  existsb (cell_eqb c) values.

(** [s.isin(values)] *)
Definition Series_isin (values : list cell) (s : Series I) : list bool :=
  map (fun v => isin values (snd v)) s.

(** [df.isin(values)]: cell by cell, over every column. *)
Definition DataFrame_isin (values : list cell) (df : DataFrame I) :
  list (list bool) :=
  map (fun r => map (isin values) (snd r)) (rows df).

(** [~mask] *)
Definition invert (mask : list (list bool)) : list (list bool) :=
  map (map negb) mask.

(** [df[mask]] for a frame of booleans of the same shape ([df.where(mask)]):
    a cell whose flag is false becomes NaN. *)
Definition where_ (df : DataFrame I) (mask : list (list bool)) : DataFrame I :=
  {| columns := columns df;
     rows := map (fun rm : (I * list cell) * list bool =>
                    (fst (fst rm),
                     map (fun cb : cell * bool =>
                            if snd cb then fst cb else None)
                         (combine (snd (fst rm)) (snd rm))))
                 (combine (rows df) mask) |}.

(** [df[mask]] for a boolean series on the frame's own index: the rows whose
    flag is true. *)
Definition loc (df : DataFrame I) (mask : list bool) : DataFrame I :=
  {| columns := columns df;
     rows := map fst (filter snd (combine (rows df) mask)) |}.

(** [df.query('label == "value"')] *)
Definition query_eq (label value : string) (df : DataFrame I) :
  result (DataFrame I) :=
  match get_loc label (columns df) with
  | Some k =>
      ok {| columns := columns df;
            rows := filter (fun r => cell_eqb (nth k (snd r) None) (Some value))
                           (rows df) |}
  | None => raise UndefinedVariableError
  end.

(** [df.rename(columns=mapping)] *)
Definition rename (mapping : list (string * string)) (df : DataFrame I) :
  DataFrame I :=
  {| columns :=
       map (fun c =>
              match find (fun m => String.eqb (fst m) c) mapping with
              | Some m => snd m
              | None => c
              end) (columns df);
     rows := rows df |}.

(** [df.reset_index(drop=True)] *)
Definition reset_index (df : DataFrame I) : DataFrame nat :=
  {| columns := columns df;
     rows := combine (seq 0 (List.length (rows df))) (map snd (rows df)) |}.

End Frames.

(** [pd.DataFrame(records, columns=[a, b])] for a list of pairs: a fresh
    frame on the index 0, 1, ... *)
Definition DataFrame_of_pairs (a b : string) (records : list (cell * cell)) :
  DataFrame nat :=
  {| columns := [a; b];
     rows := combine (seq 0 (List.length records))
                     (map (fun r => [fst r; snd r]) records) |}.

(** ** [pd.concat([a, b], axis=1, join='outer', ignore_index=True)]

    Two series side by side, aligned on their index labels.  When the two
    indexes are equal the rows are paired as they stand.  Otherwise the rows
    are those of the union of the indexes, which is not sorted
    ([sort=False]): the labels of the first series as they stand, then the
    labels of the second that the first does not have; each series gives NaN
    at a label it does not have.  An index with a repeated label cannot be
    aligned. *)

Definition union_labels (a b : list nat) : list nat :=
  (a ++ filter (fun n => negb (existsb (Nat.eqb n) a)) b)%list.

Fixpoint has_duplicates (l : list nat) : bool :=
  match l with
  | [] => false
  | n :: l' => (existsb (Nat.eqb n) l' || has_duplicates l')%bool
  end.

Definition at_label (s : Series nat) (n : nat) : cell :=
  match find (fun v => Nat.eqb (fst v) n) s with
  | Some v => snd v
  | None => None
  end.

Definition concat_axis1 (a b : Series nat) : result (DataFrame nat) :=
  if list_eq_dec Nat.eq_dec (map fst a) (map fst b) then
    ok {| columns := ["0"; "1"];
          rows := map (fun v => (fst (fst v), [snd (fst v); snd (snd v)]))
                      (combine a b) |}
  else if (has_duplicates (map fst a) || has_duplicates (map fst b))%bool then
    raise InvalidIndexError
  else
    ok {| columns := ["0"; "1"];
          rows := map (fun n => (n, [at_label a n; at_label b n]))
                      (union_labels (map fst a) (map fst b)) |}.

(** ** [pd.read_csv]

    The reader is computed for what the source's files are made of: lines of
    comma-separated fields without quoting, numbers written as plain
    literals, and years of four digits.  What the reader does with anything
    else is not a matter of the source but of the environment it runs in (the
    tokenizer's quoting rules, the number formats of its C conversion, the date
    formats of [dateutil], which depend on the current date): the model takes
    it from the [Reader] below and assumes nothing about it. *)

Inductive dtype : Type :=
| np_int      (* np.int *)
| np_float    (* np.float *)
| str         (* str *)
| category.   (* 'category' *)

Record Reader : Type := {
  (** The records of a text that has a quote character or a carriage return,
      after the first [skiprows] lines: the fields of each. *)
  tokens : nat -> string -> list (list string);
  (** A field of a numeric column that is not a plain literal (a padded
      number, an exponent form, [inf], a number out of range, ...): the cell,
      or the exception. *)
  number : dtype -> string -> result cell;
  (** A text that is not a date in ISO form: the date it is read as, in ISO
      form, if it is read as one. *)
  dateutil : string -> option string
}.

(** The field texts read as NaN (the reader's default [na_values]). *)
Definition na_values : list string :=
  [""; "#N/A"; "#N/A N/A"; "#NA"; "-1.#IND"; "-1.#QNAN"; "-NaN"; "-nan";
   "1.#IND"; "1.#QNAN"; "<NA>"; "N/A"; "NA"; "NULL"; "NaN"; "n/a"; "nan";
   "null"].

Definition is_na (f : string) : bool := existsb (String.eqb f) na_values.

Definition all_digits (s : string) : bool :=
  match Py.span Py.is_digit s with
  | (String _ _, EmptyString) => true
  | _ => false
  end.

(** A text without its minus sign, if it has one. *)
Definition unsigned (s : string) : string :=
  match s with
  | String "-" s' => s'
  | _ => s
  end.

(** A plain integer literal: an optional minus sign and at most 18 digits
    (within the range of [int64]). *)
Definition plain_int (f : string) : bool :=
  (all_digits (unsigned f) && Nat.leb (String.length (unsigned f)) 18)%bool.

(** A plain decimal literal: an optional minus sign, at most 15 digits, and
    an optional fraction of at most 15 digits. *)
Definition plain_decimal (f : string) : bool :=
  let (ip, r) := Py.span Py.is_digit (unsigned f) in
  (negb (String.eqb ip EmptyString) && Nat.leb (String.length ip) 15
   && match r with
      | EmptyString => true
      | String "." fp => all_digits fp && Nat.leb (String.length fp) 15
      | _ => false
      end)%bool.

(** A field read at its column's dtype.  An integer column cannot hold NaN;
    a number is kept as the text it was read from. *)
Definition convert (env : Reader) (dt : dtype) (f : string) : result cell :=
  if is_na f then
    match dt with
    | np_int => raise ValueError
    | _ => ok None
    end
  else
    match dt with
    | np_int => if plain_int f then ok (Some f) else number env np_int f
    | np_float => if plain_decimal f then ok (Some f) else number env np_float f
    | str | category => ok (Some f)
    end.

Fixpoint convert_row (env : Reader) (dtypes : list dtype)
  (fields : list string) : result (list cell) :=
  match dtypes, fields with
  | dt :: dtypes', f :: fields' =>
      c <- convert env dt f ;;
      cs <- convert_row env dtypes' fields' ;;
      ok (c :: cs)
  | _, _ => ok []
  end.

(** A line the reader skips ([skip_blank_lines]): empty, or spaces and tabs
    only. *)
Definition is_blank_char (c : ascii) : bool :=
  (Ascii.eqb c " " || Ascii.eqb c "009")%bool.

Fixpoint is_blank (line : string) : bool :=
  match line with
  | EmptyString => true
  | String c s => (is_blank_char c && is_blank s)%bool
  end.

(** The records of a text without quoting: its lines after the first
    [skiprows], without the blank ones. *)
Definition records (skiprows : nat) (text : string) : list string :=
  filter (fun l => negb (is_blank l)) (skipn skiprows (Py.split_on Py.nl text)).

Definition quote : ascii := ascii_of_nat 34.
Definition cr : ascii := ascii_of_nat 13.

(** The fields of the records of a text. *)
Definition tokens_of (env : Reader) (skiprows : nat) (text : string) :
  list (list string) :=
  if (Py.contains_char quote text || Py.contains_char cr text)%bool
  then tokens env skiprows text
  else map (Py.split_on ",") (records skiprows text).

(** The records at the width of the table, which is the number of names.  A
    first record with more fields is taken to start with index columns, which
    the source's [index_col] contradicts; a later one is an error of the
    tokenizer; and so is a text none of whose records has a field for every
    name.  A shorter record is completed with empty fields. *)
Definition tokenize (width : nat) (recs : list (list string)) :
  result (list (list string)) :=
  match recs with
  | [] => ok []
  | first :: _ =>
      if Nat.ltb width (List.length first) then raise ValueError
      else if existsb (fun r => Nat.ltb width (List.length r)) recs
      then raise ParserError
      else if negb (existsb (fun r => Nat.eqb (List.length r) width) recs)
      then raise ParserError
      else ok (map (fun r =>
                      (r ++ repeat EmptyString (width - List.length r))%list)
                   recs)
  end.

(** The value of a text of decimal digits. *)
Definition digit_value (c : ascii) : nat := Py.code c - 48.

Definition digits_value (s : string) : nat :=
  (fix go (acc : nat) (s : string) : nat :=
     match s with
     | EmptyString => acc
     | String c s' => go (10 * acc + digit_value c) s'
     end) 0 s.

(** A year whose first of January a [Timestamp] can hold, written with four
    digits. *)
Definition iso_year (y : string) : bool :=
  (Nat.eqb (String.length y) 4 && all_digits y
   && Nat.leb 1678 (digits_value y) && Nat.leb (digits_value y) 2262)%bool.

(** The first of January of such a year, in ISO form: what [year_parser]
    makes of the year. *)
Definition iso_date (text : string) : bool :=
  match text with
  | String a (String b (String c (String d rest))) =>
      (String.eqb rest "-01-01"
       && iso_year (String a (String b (String c (String d EmptyString)))))%bool
  | _ => false
  end.

(** [pd.to_datetime] of one text.  A [Timestamp] is written as its date in ISO
    form.  The text of a NaN year is not a date. *)
Definition to_datetime (env : Reader) (text : string) : option string :=
  if iso_date text then Some text
  else if String.eqb text "nan-01-01" then None
  else dateutil env text.

Fixpoint those {A : Type} (l : list (option A)) : option (list A) :=
  match l with
  | [] => Some []
  | Some a :: l' =>
      match those l' with
      | Some r => Some (a :: r)
      | None => None
      end
  | None :: _ => None
  end.

(** The index made of the texts the date parser returns: when one of them is
    not read as a date they are left as they are, and making the index of
    them fails. *)
Definition date_index (env : Reader) (texts : list string) :
  result (list string) :=
  match those (map (to_datetime env) texts) with
  | Some labels => ok labels
  | None => raise TypeError
  end.

(** [pd.read_csv(text, date_parser=date_parser, dtype=names, header=None,
    index_col=index_col, names=names.keys(), parse_dates=[index_col],
    skiprows=skiprows)]: the text is split into records and fields, the fields
    are converted, then the index is made.  The column of the dates is not
    converted to its dtype: the date parser is given its fields as text. *)
Definition read_csv (env : Reader) (text : string)
  (date_parser : list cell -> list string)
  (names : list (string * dtype)) (index_col : nat) (skiprows : nat) :
  result (DataFrame string) :=
  recs <- tokenize (List.length names) (tokens_of env skiprows text) ;;
  let dtypes := set_nth index_col str (map snd names) in
  cells <- mapM (convert_row env dtypes) recs ;;
  index <- date_index env
             (date_parser (map (fun r => nth index_col r None) cells)) ;;
  ok {| columns := remove_nth index_col (map fst names);
        rows := combine index (map (remove_nth index_col) cells) |}.

End Pd.

(** * players.py *)

Module Players.

Import Pd.

(** What the program reads from outside: the outcome of each fetch, the text
    of each local file, and the reader of the environment. *)
Record World : Type := {
  (** [pd.read_csv('https://timothyhelton.github.io/.../NBA_Hall_of_Fame.csv',
      dtype=fame_types, header=None, index_col=0, names=fame_types.keys(),
      skiprows=1)]: the (name, category) records of the cached list, whose
      first column is the sequential row counter, or the exception of the
      fetch. *)
  hall_of_fame_csv : result (list (cell * cell));
  (** [requests.get(url)], parsed, then
      [soup.find('section', id='nbaArticleContent')]: [None] when the page has
      no such section, else the markup of each [<p>] the section holds
      ([section.find_all('p')]). *)
  hall_of_fame_page : result (option (list string));
  (** The text of [data/Players.csv]. *)
  players_file : result string;
  (** The text of [data/Seasons_Stats.csv]. *)
  season_file : result string;
  (** What [pd.read_csv] does outside the comma-separated plain text the model
      computes. *)
  reader : Reader
}.

(** The attributes of a constructed [Statistics] (the three [*_types]
    dictionaries are the constants below). *)
Record Statistics : Type := {
  fame : DataFrame nat;
  players : DataFrame string;
  players_fame : DataFrame string;
  stats : DataFrame string;
  stats_fame : DataFrame string
}.

Definition fame_types : list (string * dtype) :=
  [("name", str); ("category", category)].

Definition players_types : list (string * dtype) :=
  [("idx", np_int);
   ("player", str);
   ("height", np_float);
   ("weight", np_float);
   ("collage", category);
   ("born", str);
   ("birth_city", str);
   ("birth_state", category)].

Definition stats_types : list (string * dtype) :=
  [("idx", np_int);
   ("season", str);
   ("player", str);
   ("position", category);
   ("age", np_float);
   ("team", category);
   ("games", np_int);
   ("games_started", np_float);
   ("minutes_played", np_float);
   ("efficiency_rating", np_float);
   ("true_shooting_pct", np_float);
   ("3_point_average_attempts", np_float);
   ("ftr", np_float);
   ("offensive_rebound_pct", np_float);
   ("defensive_rebound_pct", np_float);
   ("total_rebound_pct", np_float);
   ("assist_pct", np_float);
   ("steal_pct", np_float);
   ("block_pct", np_float);
   ("turnovers_pct", np_float);
   ("usage_pct", np_float);
   ("blank_1", str);
   ("offensive_win_shares", np_float);
   ("defensive_win_shares", np_float);
   ("win_shares", np_float);
   ("win_shares_48", np_float);
   ("blank_2", str);
   ("offensive_box_plus_minus", np_float);
   ("defensive_box_plus_minus", np_float);
   ("box_plus_minus", np_float);
   ("value_over_replacement_player", np_float);
   ("field_goals", np_int);
   ("field_goal_attempts", np_int);
   ("field_goal_pct", np_float);
   ("3_pointers", np_float);
   ("3_painters_attempts", np_float);
   ("3_pointers_pct", np_float);
   ("2_pointers", np_int);
   ("2_pointers_attempts", np_int);
   ("2_pointers_pct", np_float);
   ("effective_field_goal_pct", np_float);
   ("free_throws", np_int);
   ("free_throw_attempts", np_int);
   ("free_throw_pct", np_float);
   ("offensive_rebounds", np_float);
   ("defensive_rebounds", np_float);
   ("total_rebounds", np_float);
   ("assists", np_float);
   ("steals", np_float);
   ("blocks", np_float);
   ("turnovers", np_float);
   ("fouls", np_int);
   ("points", np_int)].

(** [re.sub(r'^\d+,+$', '', text, flags=re.MULTILINE)] *)
Definition blank_filter (text : string) : string :=
  Py.re_sub Py.artifact "" text.

(** [[f'{x}-01-01' for x in year]]; a NaN is formatted as [nan]. *)
Definition year_parser (year : list cell) : list string :=
  map (fun x => match x with
                | Some y => y
                | None => "nan"
                end ++ "-01-01") year.

(** [str(tags)] for the list of paragraphs. *)
Definition str_tags (tags : list string) : string :=
  "[" ++ Py.join ", " tags ++ "]".

(** [scrape_hall_of_fame]: the inductee table read off the page. *)
Definition scrape_hall_of_fame (w : World) : result (DataFrame nat) :=
  section <- hall_of_fame_page w ;;
  match section with
  | None => raise AttributeError
  | Some tags =>
      let members := Py.re_findall Py.member (str_tags tags) in
      let remove_tags :=
        map (fun x => (nth 0 x "", Py.re_sub Py.tag "" (nth 1 x "")))
            (tl members) in
      let remove_spaces :=
        map (fun x => (fst x, Py.re_sub (Py.class Py.is_space) "" (snd x)))
            remove_tags in
      let remove_commas :=
        map (fun x => (fst x, Py.re_sub (Py.class Py.is_comma) "" (snd x)))
            remove_spaces in
      ok (DataFrame_of_pairs "name" "category"
            (map (fun x => (Some (fst x), Some (snd x))) remove_commas))
  end.

(** [load_data], given [self.fame]: the two datasets and their Hall of Fame
    subsets. *)
Definition load_data (fame : DataFrame nat) (w : World) : result Statistics :=
  players_text <- players_file w ;;
  players <- read_csv (reader w) players_text year_parser players_types 5 1 ;;
  players <- drop ["idx"] players ;;
  let players := dropna_all players in
  player <- column "player" players ;;
  players <- set_column "player" (str_replace "*" "" player) players ;;
  season_text <- season_file w ;;
  let filtered_text := blank_filter season_text in
  stats <- read_csv (reader w) filtered_text year_parser stats_types 1 1 ;;
  stats <- drop ["blank_1"; "blank_2"; "idx"] stats ;;
  player <- column "player" stats ;;
  stats <- set_column "player" (str_replace "*" "" player) stats ;;
  fame_players <- query_eq "category" "Player" fame ;;
  filter_players <- column "name" fame_players ;;
  player <- column "player" players ;;
  let players_fame := loc players (Series_isin (tolist filter_players) player) in
  player <- column "player" stats ;;
  let stats_fame := loc stats (Series_isin (tolist filter_players) player) in
  ok {| fame := fame;
        players := players;
        players_fame := players_fame;
        stats := stats;
        stats_fame := stats_fame |}.

(** The frame the first reader makes of the records of the cached list: the
    row counter is the index, [name] and [category] are the columns.  With no
    record the reader sees no column before the named ones and takes the first
    name, [index_col=0], for the index: the frame has the one column
    [category]. *)
Definition fame_of_csv (records : list (cell * cell)) : DataFrame nat :=
  match records with
  | [] => {| columns := ["category"]; rows := [] |}
  | _ :: _ => DataFrame_of_pairs "name" "category" records
  end.

(** [Statistics()]: resolve the inductee table, correct the known
    misspelling, load the datasets.  An exception leaves the caller without
    an object. *)
Definition __init__ (w : World) : result Statistics :=
  fame <- match hall_of_fame_csv w with
          | inr records => ok (fame_of_csv records)
          | inl HTTPError => scrape_hall_of_fame w
          | inl e => raise e
          end ;;
  name <- column "name" fame ;;
  fame <- set_column "name" (str_replace "Dan Issell" "Dan Issel" name) fame ;;
  load_data fame w.

(** The expression [missing_hall_of_fame] evaluates once for each dataset,
    [values] being the names of the dataset:
    [self.fame[~self.fame.isin(values)].dropna()
       .query('category == "Player"').name]. *)
Definition missing_from (self : Statistics) (values : list cell) :
  result (Series nat) :=
  let masked :=
    where_ (fame self) (invert (DataFrame_isin values (fame self))) in
  kept <- query_eq "category" "Player" (dropna masked) ;;
  column "name" kept.

(** [missing_hall_of_fame] *)
Definition missing_hall_of_fame (self : Statistics) : result (DataFrame nat) :=
  player <- column "player" (players_fame self) ;;
  no_players <- missing_from self (tolist player) ;;
  player <- column "player" (stats self) ;;
  no_stats <- missing_from self (unique player) ;;
  both <- concat_axis1 no_players no_stats ;;
  ok (reset_index
        (rename [("0", "player_dataset"); ("1", "stats_dataset")] both)).

(** [hof_category_plot], as far as the object is concerned: the chart is
    drawn from [self.fame] alone.  Grouping needs the column [category] and
    sorting the counts needs the column [name]; a table without a category
    gives no bar to plot; and looking up the bar of category Player
    ([categories.index.get_loc('Player')]) fails when no inductee has it. *)
Definition hof_category_plot (self : Statistics) (save : bool) : result unit :=
  match get_loc "category" (columns (fame self)),
        get_loc "name" (columns (fame self)) with
  | Some k, Some _ =>
      let categories :=
        filter (fun c => negb (isna c))
               (map (fun r => nth k (snd r) None) (rows (fame self))) in
      match categories with
      | [] => raise TypeError
      | _ :: _ =>
          if isin categories (Some "Player") then ok tt else raise KeyError
      end
  | _, _ => raise KeyError
  end.

(** The methods a caller can invoke on a constructed object, and a call: the
    value or exception it ends in, and the object afterwards. *)
Inductive method : Type :=
| Repr
| Missing_hall_of_fame
| Hof_category_plot (save : bool).

Inductive value : Type :=
| Text (s : string)
| Frame (df : DataFrame nat)
| NoValue.

Definition call (m : method) (self : Statistics) : result value * Statistics :=
  match m with
  | Repr => (ok (Text "Statistics()"), self)
  | Missing_hall_of_fame =>
      (df <- missing_hall_of_fame self ;; ok (Frame df), self)
  | Hof_category_plot save =>
      (_ <- hof_category_plot self save ;; ok NoValue, self)
  end.

Definition run (ms : list method) (self : Statistics) : Statistics :=
  fold_left (fun s m => snd (call m s)) ms self.

End Players.

Import Py Pd Players.

(** * Notions used in the statements *)

(** ** Text and lines *)

(** A text without a newline. *)
Definition nl_free (s : string) : bool := negb (contains_char nl s).

(** A line made of one or more digits, then one or more commas, and nothing
    else. *)
Definition artifact_line (l : string) : bool :=
  match span is_digit l with
  | (String _ _, r) =>
      match span is_comma r with
      | (String _ _, EmptyString) => true
      | _ => false
      end
  | _ => false
  end.

(** What the sanitizer makes of one line. *)
Definition clean_line (l : string) : string :=
  if artifact_line l then EmptyString else l.

Definition lines (text : string) : list string := split_on nl text.

Definition unlines (ls : list string) : string := join (String nl "") ls.

(** Every character of the text is in the class. *)
Fixpoint all_in (f : ascii -> bool) (s : string) : bool :=
  match s with
  | EmptyString => true
  | String c s' => (f c && all_in f s')%bool
  end.

(** Text of several lines: [line l rest] is [l], a newline, then [rest]. *)
Definition line (l rest : string) : string := l ++ String Py.nl rest.

(** ** Rows that match a schema

    What the specification calls a row that matches its schema, said of the
    text of the line alone: as many fields as the schema has names, each
    written as its type is written in the source's files, and a year of four
    digits for the key. *)

(** The fields of a line. *)
Definition fields (line : string) : list string := split_on "," line.







(** The text of a file: a header line, then the rows, each line ended by a
    newline. *)
Definition file_of (header : string) (rows : list string) : string :=
  line header (fold_right line "" rows).




(** ** Names of the tables *)

(** The name of a row of a dataset, and the names of the inductees of
    category Player ([filter_players] in [load_data]). *)
Definition player_of (df : DataFrame string) (r : string * list cell) : cell :=
  match get_loc "player" (columns df) with
  | Some k => nth k (snd r) None
  | None => None
  end.

Definition inductee_players (hof : DataFrame nat) : list cell :=
  match query_eq "category" "Player" hof with
  | inr fame_players =>
      match column "name" fame_players with
      | inr names => tolist names
      | inl _ => []
      end
  | inl _ => []
  end.

Definition in_fame (hof : DataFrame nat) (df : DataFrame string)
  (r : string * list cell) : bool :=
  isin (inductee_players hof) (player_of df r).

(** Every name of the table is free of the marker character. *)
Definition star_free (df : DataFrame string) : Prop :=
  forall r name,
    In r (rows df) -> player_of df r = Some name ->
    Py.contains_char "*" name = false.

(** ** The inductee table *)

(** The corrected (name, category) records. *)
Definition correct_name (r : cell * cell) : cell * cell :=
  (option_map (Py.str_replace "Dan Issell" "Dan Issel") (fst r), snd r).

(** The inductee table as the resolver returns it: the cached list, or the
    scraped one when the fetch of the cached list fails with an HTTP error. *)
Definition resolved_fame (w : World) : result (DataFrame nat) :=
  match hall_of_fame_csv w with
  | inr records => ok (fame_of_csv records)
  | inl HTTPError => scrape_hall_of_fame w
  | inl e => raise e
  end.

(** The pairs the scrape extracts, when the page has the section. *)
Definition scraped_pairs (w : World) : option (list (list string)) :=
  match hall_of_fame_page w with
  | inr (Some tags) => Some (Py.re_findall Py.member (str_tags tags))
  | _ => None
  end.

(** ** The difference with a dataset *)

(** An inductee record is reported missing for the names [values] of a
    dataset when it has a name and the category Player, and neither its name
    nor its category is among [values]. *)
Definition reported (values : list cell) (r : cell * cell) : bool :=
  (negb (isna (fst r)) && negb (isna (snd r))
   && negb (isin values (fst r)) && negb (isin values (snd r))
   && cell_eqb (snd r) (Some "Player"))%bool.

(** The records with their index labels. *)
Definition indexed (records : list (cell * cell)) : list (nat * (cell * cell)) :=
  combine (seq 0 (List.length records)) records.

Definition name_of (ir : nat * (cell * cell)) : cell := fst (snd ir).

Definition reported_at (values : list cell) (ir : nat * (cell * cell)) : bool :=
  reported values (snd ir).

(** Labelled entries [ix], the value [v] each contributes, and a selection
    [f] of them as a series. *)
Definition selected {X : Type} (ix : list (nat * X)) (v : nat * X -> cell)
  (f : nat * X -> bool) : Series nat :=
  map (fun e => (fst e, v e)) (filter f ix).

(** Two selections side by side: first one row for each entry of the first
    selection, holding its value in the first column and in the second when
    the second selection has it too, then one row for each entry that only
    the second selects. *)
Definition side_by_side {X : Type} (ix : list (nat * X)) (v : nat * X -> cell)
  (p q : nat * X -> bool) : list (nat * list cell) :=
  (map (fun e => (fst e, [v e; if q e then v e else None])) (filter p ix)
   ++ map (fun e => (fst e, [None; v e]))
          (filter (fun e => (q e && negb (p e))%bool) ix))%list.

(** The table [missing_hall_of_fame] returns, from the inductee records and
    the names of the two datasets. *)
Definition missing_table (records : list (cell * cell))
  (player_values stats_values : list cell) : DataFrame nat :=
  reset_index
    (rename [("0", "player_dataset"); ("1", "stats_dataset")]
       {| columns := ["0"; "1"];
          rows := side_by_side (indexed records) name_of
                    (reported_at player_values)
                    (reported_at stats_values) |}).

(** The labels a series has, and two series aligned on their labels: one row
    of two cells for each label of the first series, in its order, then one
    for each label that only the second has, in its order; a series without
    the label gives NaN. *)
Definition has_label (s : Series nat) (i : nat) : bool :=
  existsb (Nat.eqb i) (map fst s).

Definition aligned (a b : Series nat) : list (list cell) :=
  map (fun i => [at_label a i; at_label b i])
      (map fst a ++ filter (fun i => negb (has_label a i)) (map fst b))%list.

(** The entries of a series that another series has too, and those it does
    not have. *)
Definition shared (a b : Series nat) : Series nat :=
  filter (fun v => has_label a (fst v)) b.

Definition only_in (a b : Series nat) : Series nat :=
  filter (fun v => negb (has_label a (fst v))) b.

(** The values of the [k]-th column, and those of them that are not NaN. *)
Definition column_values (k : nat) (df : DataFrame nat) : list cell :=
  map (fun r => nth k (snd r) None) (rows df).

Definition present (l : list cell) : list cell :=
  filter (fun c => negb (isna c)) l.

(** Two sequences side by side by position, the shorter completed with NaN
    at its end. *)
Definition padded (a b : list cell) : list (list cell) :=
  map (fun k => [nth k a None; nth k b None])
      (seq 0 (Nat.max (List.length a) (List.length b))).

(** ** Cells by name *)



(** A text without the characters of a class, and without one character. *)
Fixpoint remove_chars (f : ascii -> bool) (s : string) : string :=
  match s with
  | EmptyString => EmptyString
  | String a s' =>
      if f a then remove_chars f s' else String a (remove_chars f s')
  end.



(** ** The page of inductees *)

(** A paragraph of the page as the scrape expects it: a name in bold, then a
    description. *)
Definition paragraph (name description : string) : string :=
  "<p> <b>" ++ name ++ "</b>" ++ description ++ "</p>".

Definition paragraph_of (p : string * string) : string :=
  paragraph (fst p) (snd p).

(** A text a group of the pattern can hold whole: not empty, on one line,
    and without the closing tag that ends the group. *)
Definition plain (delimiter s : string) : bool :=
  (negb (String.eqb s "") && nl_free s && negb (contains delimiter s))%bool.

Definition well_formed (p : string * string) : bool :=
  (plain "</b>" (fst p) && plain "</p>" (snd p))%bool.

(** The category the scrape makes of a description. *)
Definition category_text (description : string) : string :=
  remove_chars is_comma (remove_chars is_space (re_sub tag "" description)).

(** A name that holds the misspelling. *)
Definition misspelt (c : cell) : bool :=
  match c with
  | Some n => contains "Dan Issell" n
  | None => false
  end.

(** * Sample inputs *)

(** The samples are plain text with plain numbers and four-digit years: the
    reader of the environment is never consulted. *)
Definition sample_reader : Reader :=
  {| tokens := fun _ _ => [];
     number := fun _ _ => raise ValueError;
     dateutil := fun _ => None |}.

(** A line of [Seasons_Stats.csv] for one player and season, with the
    integer columns filled in. *)
Definition stats_line (idx season player : string) : string :=
  idx ++ "," ++ season ++ "," ++ player
  ++ ",G,25,BOS,70,,,,,,,,,,,,,,,,,,,,,,,,,100,200,0.5,,,,100,200,0.5,0.5,"
  ++ "50,60,0.8,,,,,,,,120,250".

Definition players_header : string :=
  ",Player,height,weight,collage,born,birth_city,birth_state".

Definition stats_header : string := ",Year,Player,Pos,Age,Tm,G".

(** An object with empty tables, the default where an object is computed
    from a sample input. *)
Definition no_object : Statistics :=
  {| fame := {| columns := []; rows := [] |};
     players := {| columns := []; rows := [] |};
     players_fame := {| columns := []; rows := [] |};
     stats := {| columns := []; rows := [] |};
     stats_fame := {| columns := []; rows := [] |} |}.

(** Two inductees of category Player, each absent from one dataset. *)
Definition two_players_world : World :=
  {| hall_of_fame_csv :=
       inr [(Some "Bob Cousy", Some "Player");
            (Some "Bill Russell", Some "Player")];
     hall_of_fame_page := inl OSError;
     players_file :=
       inr (line players_header
              (line "0,Bill Russell*,208,97,University of San Francisco,1934,Monroe,Louisiana" ""));
     season_file :=
       inr (line stats_header (line (stats_line "0" "1951" "Bob Cousy*") ""));
     reader := sample_reader |}.

(** The object constructed from it. *)
Definition two_players_obj : Statistics :=
  Eval vm_compute in
    match __init__ two_players_world with
    | inr obj => obj
    | inl _ => no_object
    end.

(** An inductee absent from the stats dataset, whose only row is a player
    named [Player]. *)
Definition named_player_world : World :=
  {| hall_of_fame_csv := inr [(Some "Bill Russell", Some "Player")];
     hall_of_fame_page := inl OSError;
     players_file :=
       inr (line players_header
              (line "0,Bill Russell*,208,97,University of San Francisco,1934,Monroe,Louisiana" ""));
     season_file :=
       inr (line stats_header (line (stats_line "0" "1951" "Player") ""));
     reader := sample_reader |}.

(** The cached list cannot be fetched, and the page has the section but no
    paragraph of the expected shape. *)
Definition empty_scrape_world : World :=
  {| hall_of_fame_csv := inl HTTPError;
     hall_of_fame_page := inr (Some ["<p>No inductees are listed.</p>"]);
     players_file :=
       inr (line players_header
              (line "0,Bill Russell*,208,97,University of San Francisco,1934,Monroe,Louisiana" ""));
     season_file :=
       inr (line stats_header (line (stats_line "0" "1951" "Bob Cousy*") ""));
     reader := sample_reader |}.

Definition issel_records : list (cell * cell) :=
  [(Some "Dan Issell", Some "Player"); (Some "Red Auerbach", Some "Coach")].


Definition issel_world : World :=
  {| hall_of_fame_csv := inr issel_records;
     hall_of_fame_page := inl OSError;
     players_file :=
       inr (line players_header
              (line "0,Dan Issel*,206,106,University of Kentucky,1948,Batavia,Illinois" ""));
     season_file :=
       inr (line stats_header (line (stats_line "0" "1971" "Dan Issel*") ""));
     reader := sample_reader |}.

Definition issel_obj : Statistics :=
  Eval vm_compute in
    match __init__ issel_world with
    | inr obj => obj
    | inl _ => no_object
    end.

(** A biography file with a marked name and a fully-empty row, and a stats
    file of two seasons. *)
Definition sample_players_rows : list string :=
  ["0,Bob Cousy*,185,79,College of the Holy Cross,1928,New York,New York";
   "1,,,,,1930,,";
   "2,Bill Russell*,208,97,University of San Francisco,1934,Monroe,Louisiana"].

Definition sample_players_text : string :=
  file_of players_header sample_players_rows.

Definition sample_stats_rows : list string :=
  [stats_line "0" "1951" "Bob Cousy*"; stats_line "1" "1957" "Bill Russell*"].

Definition sample_stats_text : string :=
  file_of stats_header sample_stats_rows.

Definition sample_world : World :=
  {| hall_of_fame_csv :=
       inr [(Some "Bob Cousy", Some "Player");
            (Some "Red Auerbach", Some "Coach")];
     hall_of_fame_page := inl OSError;
     players_file := inr sample_players_text;
     season_file := inr sample_stats_text;
     reader := sample_reader |}.

Definition sample_fame : DataFrame nat :=
  DataFrame_of_pairs "name" "category"
    [(Some "Bob Cousy", Some "Player"); (Some "Red Auerbach", Some "Coach")].

Definition sample_obj : Statistics :=
  Eval vm_compute in
    match load_data sample_fame sample_world with
    | inr obj => obj
    | inl _ => no_object
    end.






(** Two inductees of category Player: the second is absent from both
    datasets, the first from the stats dataset only. *)
Definition second_first_world : World :=
  {| hall_of_fame_csv :=
       inr [(Some "Bill Russell", Some "Player");
            (Some "Bob Cousy", Some "Player")];
     hall_of_fame_page := inl OSError;
     players_file :=
       inr (line players_header
              (line "0,Bill Russell*,208,97,University of San Francisco,1934,Monroe,Louisiana" ""));
     season_file :=
       inr (line stats_header (line (stats_line "0" "1951" "Wilt Chamberlain*") ""));
     reader := sample_reader |}.

Definition second_first_obj : Statistics :=
  Eval vm_compute in
    match __init__ second_first_world with
    | inr obj => obj
    | inl _ => no_object
    end.

(** Datasets that themselves spell the name [Dan Issell]. *)
Definition misspelt_dataset_world : World :=
  {| hall_of_fame_csv := inr issel_records;
     hall_of_fame_page := inl OSError;
     players_file :=
       inr (line players_header
              (line "0,Dan Issell*,206,106,University of Kentucky,1948,Batavia,Illinois" ""));
     season_file :=
       inr (line stats_header (line (stats_line "0" "1971" "Dan Issell*") ""));
     reader := sample_reader |}.

(** The cached list cannot be fetched, and the page lists a heading and two
    inductees. *)
Definition page_pairs : list (string * string) :=
  [("Inductee", ", Category");
   ("Dan Issell", ", <i>Player</i>");
   ("Red Auerbach", ", Coach")].

Definition page_world : World :=
  {| hall_of_fame_csv := inl HTTPError;
     hall_of_fame_page := inr (Some (map paragraph_of page_pairs));
     players_file := inr sample_players_text;
     season_file := inr sample_stats_text;
     reader := sample_reader |}.

(** * Properties of the text sanitizer *)

Section Sanitizer.

(** The scan, one step unfolded. *)
Lemma scan_cons p bol c s :
  scan p bol (String c s) =
  match match_at p bol (String c s) with
  | Some (m, g, r) => inr g :: scan p (ends_with_nl m) r
  | None => inl c :: scan p (Ascii.eqb c nl) s
  end.
Proof.
  simp scan.
  generalize (inspect (match_at p bol (String c s))).
  intros [o e]. destruct o as [[[m g] r]|]; simpl; rewrite e; reflexivity.
Qed.

Lemma append_nil_r (s : string) : s ++ "" = s.
Proof. induction s as [|c s IH]; simpl; [reflexivity|now rewrite IH]. Qed.

Lemma split_on_not_nil sep s : split_on sep s <> [].
Proof.
  destruct s as [|c s]; simpl; [discriminate|].
  destruct (Ascii.eqb c sep); [discriminate|].
  destruct (split_on sep s); discriminate.
Qed.

Lemma join_cons sep s l :
  l <> [] -> join sep (s :: l) = s ++ sep ++ join sep l.
Proof. destruct l; [congruence|reflexivity]. Qed.

Lemma unlines_lines text : unlines (lines text) = text.
Proof.
  unfold unlines, lines.
  induction text as [|c s IH]; simpl; [reflexivity|].
  destruct (Ascii.eqb_spec c nl) as [->|N].
  - rewrite join_cons by apply split_on_not_nil. simpl. now rewrite IH.
  - pose proof (split_on_not_nil nl s) as NE.
    destruct (split_on nl s) as [|h t]; [congruence|].
    destruct t as [|h' t]; simpl in *; now rewrite <- IH.
Qed.

Lemma lines_nl_free text : Forall (fun l => nl_free l = true) (lines text).
Proof.
  unfold lines, nl_free.
  induction text as [|c s IH]; simpl; [repeat constructor|].
  destruct (Ascii.eqb_spec c nl) as [->|N].
  - constructor; [reflexivity|exact IH].
  - destruct (split_on nl s) as [|h t]; simpl.
    + repeat constructor. simpl. destruct (Ascii.eqb_spec c nl); [congruence|reflexivity].
    + inversion IH as [|? ? Hh Ht]; subst. constructor; [|exact Ht].
      simpl. destruct (Ascii.eqb_spec c nl); [congruence|exact Hh].
Qed.

Lemma lines_app_nl l r :
  nl_free l = true -> lines (l ++ String nl r) = l :: lines r.
Proof.
  unfold lines, nl_free. induction l as [|c l IH]; simpl; intros H.
  - reflexivity.
  - destruct (Ascii.eqb c nl); [discriminate|]. simpl in H.
    now rewrite IH.
Qed.

Lemma lines_nl_free_line l : nl_free l = true -> lines l = [l].
Proof.
  unfold lines, nl_free. induction l as [|c l IH]; simpl; intros H.
  - reflexivity.
  - destruct (Ascii.eqb c nl); [discriminate|]. simpl in H.
    now rewrite IH.
Qed.

Lemma lines_unlines ls :
  ls <> [] -> Forall (fun l => nl_free l = true) ls -> lines (unlines ls) = ls.
Proof.
  unfold unlines. induction ls as [|l ls IH]; [congruence|].
  intros _ F. inversion F as [|? ? Hl Hls]; subst.
  destruct ls as [|l' ls].
  - simpl. now apply lines_nl_free_line.
  - rewrite join_cons by discriminate. simpl.
    rewrite lines_app_nl by exact Hl. f_equal. apply IH; [discriminate|exact Hls].
Qed.

Lemma count_char_app c a b :
  count_char c (a ++ b) = count_char c a + count_char c b.
Proof. induction a as [|x a IH]; simpl; [reflexivity|rewrite IH; lia]. Qed.

Lemma count_nl_free l : nl_free l = true -> count_char nl l = 0.
Proof.
  unfold nl_free. induction l as [|c l IH]; simpl; [reflexivity|].
  destruct (Ascii.eqb c nl); simpl; [discriminate|exact IH].
Qed.

Lemma count_nl_unlines ls :
  Forall (fun l => nl_free l = true) ls ->
  count_char nl (unlines ls) = List.length ls - 1.
Proof.
  unfold unlines. induction ls as [|l ls IH]; [reflexivity|].
  intros F. inversion F as [|? ? Hl Hls]; subst.
  destruct ls as [|l' ls].
  - simpl. now apply count_nl_free.
  - rewrite join_cons by discriminate. rewrite count_char_app.
    change (count_char nl (String nl "" ++ join (String nl "") (l' :: ls)))
      with (S (count_char nl (join (String nl "") (l' :: ls)))).
    rewrite IH by exact Hls. rewrite count_nl_free by exact Hl.
    simpl. lia.
Qed.

(** A greedy run stops at the end of the line it is in. *)
Lemma span_app f l r :
  (match r with EmptyString => True | String c _ => f c = false end) ->
  span f (l ++ r) = (fst (span f l), snd (span f l) ++ r).
Proof.
  intros Hr. induction l as [|c l IH]; simpl.
  - destruct r as [|c r]; [reflexivity|]. simpl. now rewrite Hr.
  - destruct (f c); [|reflexivity].
    rewrite IH. now destruct (span f l).
Qed.

Lemma span_nl_free f l :
  nl_free l = true -> nl_free (snd (span f l)) = true.
Proof.
  unfold nl_free. induction l as [|c l IH]; simpl; [reflexivity|].
  destruct (Ascii.eqb c nl) eqn:E; simpl; [discriminate|]. intros H.
  destruct (f c).
  - specialize (IH H). now destruct (span f l).
  - simpl. now rewrite E.
Qed.

Lemma at_eol_app l r :
  nl_free l = true -> at_eol r = true ->
  at_eol (l ++ r) = match l with EmptyString => true | _ => false end.
Proof.
  unfold nl_free. destruct l as [|c l]; simpl; [easy|].
  destruct (Ascii.eqb c nl); simpl; [discriminate|reflexivity].
Qed.

Lemma at_eol_cases r :
  at_eol r = true -> r = EmptyString \/ exists r', r = String nl r'.
Proof.
  destruct r as [|c r]; [now left|]. simpl.
  destruct (Ascii.eqb_spec c nl) as [->|]; [|discriminate]. right. now exists r.
Qed.

(** At the beginning of a line, the pattern matches exactly the artifact
    lines, and then the whole line. *)
Lemma match_artifact_line l r :
  nl_free l = true -> at_eol r = true ->
  match_artifact true (l ++ r) =
  if artifact_line l then Some (l, [], r) else None.
Proof.
  intros Hl Hr. unfold match_artifact, artifact_line.
  assert (Hd : match r with EmptyString => True
                       | String c _ => is_digit c = false end).
  { destruct (at_eol_cases r Hr) as [->|[r' ->]]; [exact I|reflexivity]. }
  assert (Hc : match r with EmptyString => True
                       | String c _ => is_comma c = false end).
  { destruct (at_eol_cases r Hr) as [->|[r' ->]]; [exact I|reflexivity]. }
  rewrite (span_app _ l r Hd).
  pose proof (span_split is_digit l) as E1.
  pose proof (span_nl_free is_digit l Hl) as N1.
  destruct (span is_digit l) as [ds r1]; simpl in *.
  rewrite (span_app _ r1 r Hc).
  pose proof (span_split is_comma r1) as E2.
  pose proof (span_nl_free is_comma r1 N1) as N2.
  destruct (span is_comma r1) as [cs r2]; simpl in *.
  destruct ds as [|d ds]; [reflexivity|].
  destruct cs as [|c cs]; [reflexivity|].
  rewrite (at_eol_app r2 r N2 Hr).
  destruct r2 as [|x r2]; [|reflexivity].
  simpl. rewrite E1, E2, append_nil_r. reflexivity.
Qed.

Lemma ends_with_nl_nl_free l : nl_free l = true -> ends_with_nl l = false.
Proof.
  unfold nl_free. induction l as [|c l IH]; simpl; [reflexivity|].
  destruct (Ascii.eqb c nl) eqn:E; simpl; [discriminate|]. intros H.
  destruct l; [reflexivity|now apply IH].
Qed.

(** Inside a line nothing matches: the characters are copied up to the end of
    the line. *)
Lemma sub_inside_line l r :
  nl_free l = true ->
  emit "" (scan artifact false (l ++ r)) = l ++ emit "" (scan artifact false r).
Proof.
  unfold nl_free. induction l as [|c l IH]; simpl; [reflexivity|].
  destruct (Ascii.eqb c nl) eqn:E; simpl; [discriminate|]. intros H.
  rewrite scan_cons. simpl. rewrite E. now rewrite IH.
Qed.

(** At the end of a line the flag does not matter: a newline is copied, and
    the next position begins a line. *)
Lemma sub_at_eol b r :
  at_eol r = true ->
  emit "" (scan artifact b r) =
  match r with
  | EmptyString => EmptyString
  | String c r' => String c (emit "" (scan artifact true r'))
  end.
Proof.
  intros H. destruct (at_eol_cases r H) as [->|[r' ->]].
  - now simp scan.
  - rewrite scan_cons. simpl.
    replace (match_artifact b (String nl r')) with
      (@None (string * list string * string)) by now destruct b.
    reflexivity.
Qed.

Lemma sub_line l r :
  nl_free l = true -> at_eol r = true ->
  emit "" (scan artifact true (l ++ r)) =
  clean_line l ++ emit "" (scan artifact false r).
Proof.
  intros Hl Hr. unfold clean_line.
  destruct l as [|c l].
  - simpl. rewrite (sub_at_eol true r Hr), (sub_at_eol false r Hr).
    now destruct r.
  - assert (M : match_at artifact true (String c (l ++ r)) =
                if artifact_line (String c l)
                then Some (String c l, [], r) else None)
      by exact (match_artifact_line (String c l) r Hl Hr).
    simpl append at 1. rewrite scan_cons, M.
    destruct (artifact_line (String c l)).
    + rewrite (ends_with_nl_nl_free _ Hl). reflexivity.
    + simpl. unfold nl_free in Hl. simpl in Hl.
      destruct (Ascii.eqb c nl) eqn:E; [discriminate|]. simpl in Hl.
      f_equal. apply sub_inside_line. exact Hl.
Qed.

(** The sanitizer works line by line: it empties the artifact lines and keeps
    every other line, and every newline, as it is. *)
Theorem blank_filter_lines text :
  Players.blank_filter text = unlines (map clean_line (lines text)).
Proof.
  unfold Players.blank_filter, re_sub.
  rewrite <- (unlines_lines text) at 1.
  pose proof (lines_nl_free text) as F.
  pose proof (split_on_not_nil nl text) as NE. fold (lines text) in NE.
  induction (lines text) as [|l ls IH]; [congruence|].
  inversion F as [|? ? Hl Hls]; subst.
  destruct ls as [|l' ls].
  - simpl. transitivity (emit "" (scan artifact true (l ++ ""))).
    { now rewrite append_nil_r. }
    rewrite (sub_line l "" Hl eq_refl). simp scan. simpl. apply append_nil_r.
  - unfold unlines in *. rewrite join_cons by discriminate.
    change (map clean_line (l :: l' :: ls))
      with (clean_line l :: map clean_line (l' :: ls)).
    rewrite (join_cons _ _ (map clean_line (l' :: ls))) by discriminate.
    set (rest := join (String nl "") (l' :: ls)) in *.
    set (rest' := join (String nl "") (map clean_line (l' :: ls))) in *.
    change (String nl "" ++ rest) with (String nl rest).
    change (String nl "" ++ rest') with (String nl rest').
    rewrite (sub_line l (String nl rest) Hl eq_refl). f_equal.
    rewrite (sub_at_eol false (String nl rest) eq_refl). f_equal.
    apply IH; [exact Hls|discriminate].
Qed.

Lemma clean_line_nl_free ls :
  Forall (fun l => nl_free l = true) ls ->
  Forall (fun l => nl_free l = true) (map clean_line ls).
Proof.
  induction 1 as [|l ls Hl _ IH]; simpl; constructor; [|exact IH].
  unfold clean_line. now destruct (artifact_line l).
Qed.

Lemma clean_line_idempotent l : clean_line (clean_line l) = clean_line l.
Proof.
  unfold clean_line. destruct (artifact_line l) eqn:E; [reflexivity|].
  now rewrite E.
Qed.

Lemma lines_blank_filter text :
  lines (Players.blank_filter text) = map clean_line (lines text).
Proof.
  rewrite blank_filter_lines. apply lines_unlines.
  - pose proof (split_on_not_nil nl text) as NE. fold (lines text) in NE.
    destruct (lines text); [congruence|discriminate].
  - apply clean_line_nl_free, lines_nl_free.
Qed.

Lemma span_all f a b :
  all_in f a = true ->
  (match b with EmptyString => True | String c _ => f c = false end) ->
  span f (a ++ b) = (a, b).
Proof.
  intros Ha Hb. induction a as [|c a IH]; simpl in *.
  - destruct b as [|c b]; [reflexivity|]. simpl. now rewrite Hb.
  - apply andb_prop in Ha. destruct Ha as [-> Ha]. now rewrite IH.
Qed.

(** The matcher finds every match there is: whenever the text at the
    beginning of a line is some digits, then some commas, then the end of the
    line, however one splits it, the greedy matcher returns that match. *)
Lemma match_artifact_complete ds cs r :
  ds <> EmptyString -> all_in is_digit ds = true ->
  cs <> EmptyString -> all_in is_comma cs = true ->
  at_eol r = true ->
  match_artifact true (ds ++ cs ++ r) = Some (ds ++ cs, [], r).
Proof.
  intros Nd Hd Nc Hc Hr. unfold match_artifact.
  assert (Hcs : match cs ++ r with
                | EmptyString => True
                | String c _ => is_digit c = false
                end).
  { destruct cs as [|c cs]; [congruence|]. simpl in *.
    apply andb_prop in Hc. destruct Hc as [Hc _].
    unfold is_comma in Hc. apply Ascii.eqb_eq in Hc. now subst c. }
  rewrite (span_all _ ds (cs ++ r) Hd Hcs).
  assert (Hr' : match r with
                | EmptyString => True
                | String c _ => is_comma c = false
                end).
  { destruct (at_eol_cases r Hr) as [->|[r' ->]]; [exact I|reflexivity]. }
  rewrite (span_all _ cs r Hc Hr').
  destruct ds; [congruence|]. destruct cs; [congruence|]. now rewrite Hr.
Qed.

End Sanitizer.

(** C6.  Sanitizing the text ["1,,,\nJohn,25,6.5\n2,,\n"] yields
    ["\nJohn,25,6.5\n\n"]; and for every text, the sanitizer empties each line
    made only of digits followed by commas and leaves every other line as it
    is, in the same order. *)
Theorem blank_filter_scenario :
  Players.blank_filter (line "1,,," (line "John,25,6.5" (line "2,," ""))) =
    line "" (line "John,25,6.5" (line "" ""))
  /\ forall text,
       Players.blank_filter text = unlines (map clean_line (lines text)).
Proof.
  split; [vm_compute; reflexivity|exact blank_filter_lines].
Qed.

(** C7.  The sanitizer is idempotent. *)
Theorem blank_filter_idempotent text :
  Players.blank_filter (Players.blank_filter text) = Players.blank_filter text.
Proof.
  rewrite (blank_filter_lines (Players.blank_filter text)).
  rewrite lines_blank_filter, map_map.
  rewrite (blank_filter_lines text). f_equal.
  apply map_ext. exact clean_line_idempotent.
Qed.

(** C10.  The sanitizer keeps every line in its place, emptied when it is an
    artifact line: the output has as many lines, and as many newline
    characters, as the input. *)
Theorem blank_filter_preserves_lines text :
  lines (Players.blank_filter text) = map clean_line (lines text)
  /\ List.length (lines (Players.blank_filter text)) = List.length (lines text)
  /\ Py.count_char Py.nl (Players.blank_filter text) = Py.count_char Py.nl text.
Proof.
  split; [apply lines_blank_filter|]. split.
  - now rewrite lines_blank_filter, length_map.
  - rewrite blank_filter_lines.
    rewrite count_nl_unlines by apply clean_line_nl_free, lines_nl_free.
    rewrite length_map.
    rewrite <- (unlines_lines text) at 2.
    now rewrite count_nl_unlines by apply lines_nl_free.
Qed.

Lemma clean_line_not_artifact l : artifact_line (clean_line l) = false.
Proof.
  unfold clean_line. destruct (artifact_line l) eqn:E; [reflexivity|exact E].
Qed.

Lemma map_clean_line_id ls :
  map clean_line ls = ls <-> Forall (fun l => artifact_line l = false) ls.
Proof.
  induction ls as [|l ls IH]; simpl.
  - split; [constructor|reflexivity].
  - split.
    + intros [= E1 E2]. constructor; [|now apply IH].
      rewrite <- E1. apply clean_line_not_artifact.
    + intros H. inversion H as [|? ? H1 H2]; subst.
      unfold clean_line at 1. rewrite H1. f_equal. now apply IH.
Qed.

(** X1.  No line of a sanitized text is an artifact line, and the sanitizer
    changes a text exactly when the text has an artifact line. *)
Theorem blank_filter_leaves_no_artifact text :
  Forall (fun l => artifact_line l = false) (lines (Players.blank_filter text))
  /\ (Players.blank_filter text = text <->
      Forall (fun l => artifact_line l = false) (lines text)).
Proof.
  split.
  - rewrite lines_blank_filter. apply Forall_forall. intros l Hl.
    apply in_map_iff in Hl. destruct Hl as (l' & <- & _).
    apply clean_line_not_artifact.
  - rewrite <- map_clean_line_id. rewrite <- lines_blank_filter. split.
    + intros E. now rewrite E.
    + intros E. rewrite <- (unlines_lines (Players.blank_filter text)).
      rewrite E. apply unlines_lines.
Qed.

(** * Properties of the frame operations *)

(** Inversion of one step of a computation that ended well. *)
Ltac inv_bind H :=
  match type of H with
  | bind ?m _ = inr _ =>
      let E := fresh "E" in
      destruct m eqn:E; [discriminate H|cbn beta iota delta [bind] in H]
  end.

Section FrameFacts.

Context {I : Type}.

Lemma cell_eqb_eq (a b : cell) : cell_eqb a b = true <-> a = b.
Proof.
  destruct a as [x|], b as [y|]; simpl; try (split; congruence).
  rewrite String.eqb_eq. split; congruence.
Qed.

Lemma isin_In (values : list cell) (c : cell) :
  isin values c = true <-> In c values.
Proof.
  unfold isin. rewrite existsb_exists. split.
  - intros (x & Hx & E). apply cell_eqb_eq in E. now subst.
  - intros H. exists c. split; [exact H|now apply cell_eqb_eq].
Qed.

Lemma filter_combine_map {A : Type} (f : A -> bool) (l : list A) :
  map fst (filter snd (combine l (map f l))) = filter f l.
Proof.
  induction l as [|a l IH]; simpl; [reflexivity|].
  destruct (f a); simpl; now rewrite IH.
Qed.

(** Selecting rows by a test on one column is a filter of the rows. *)
Lemma loc_isin (df : DataFrame I) label k s values :
  get_loc label (columns df) = Some k ->
  column label df = inr s ->
  rows (loc df (Series_isin values s)) =
  filter (fun r => isin values (nth k (snd r) None)) (rows df).
Proof.
  intros Hk. unfold column. rewrite Hk. intros [= <-].
  unfold loc, Series_isin. simpl. rewrite map_map. simpl.
  apply filter_combine_map.
Qed.

Lemma nth_set_nth {A : Type} k (v d : A) l :
  nth k (set_nth k v l) d = if Nat.ltb k (List.length l) then v else d.
Proof.
  revert l; induction k as [|k IH]; intros [|x l]; simpl; try reflexivity.
  rewrite IH. reflexivity.
Qed.

Lemma length_set_nth {A : Type} k (v : A) l :
  List.length (set_nth k v l) = List.length l.
Proof.
  revert l; induction k as [|k IH]; intros [|x l]; simpl; auto.
Qed.

(** After [df.label = s], a cell of the column is a value of [s], or NaN. *)
Lemma set_column_cell (df df' : DataFrame I) label s k r :
  get_loc label (columns df) = Some k ->
  set_column label s df = inr df' ->
  In r (rows df') ->
  nth k (snd r) None = None \/ In (nth k (snd r) None) (tolist s).
Proof.
  intros Hk. unfold set_column. rewrite Hk. intros [= <-]. simpl.
  rewrite in_map_iff. intros ([[i cells] v] & <- & Hin). simpl.
  apply in_combine_r in Hin. rewrite nth_set_nth.
  destruct (Nat.ltb k (List.length cells)); [now right|now left].
Qed.

Lemma set_column_columns (df df' : DataFrame I) label s :
  set_column label s df = inr df' -> columns df' = columns df.
Proof.
  unfold set_column.
  destruct (get_loc label (columns df)); now intros [= <-].
Qed.

Lemma set_column_length (df df' : DataFrame I) label s :
  List.length s = List.length (rows df) ->
  set_column label s df = inr df' ->
  List.length (rows df') = List.length (rows df).
Proof.
  unfold set_column.
  destruct (get_loc label (columns df)); intros L [= <-]; [|reflexivity].
  simpl. unfold tolist.
  rewrite length_map, length_combine, length_map. lia.
Qed.

Lemma column_length (df : DataFrame I) label s :
  column label df = inr s -> List.length s = List.length (rows df).
Proof.
  unfold column. destruct (get_loc label (columns df)); [|discriminate].
  intros [= <-]. apply length_map.
Qed.

Lemma column_get_loc (df : DataFrame I) label s :
  column label df = inr s -> exists k, get_loc label (columns df) = Some k.
Proof.
  unfold column. destruct (get_loc label (columns df)) as [k|]; [|discriminate].
  intros _. now exists k.
Qed.

Lemma str_replace_length old new (s : Series I) :
  List.length (str_replace old new s) = List.length s.
Proof. apply length_map. Qed.

Lemma loc_incl (df : DataFrame I) mask : incl (rows (loc df mask)) (rows df).
Proof.
  intros r. unfold loc. simpl. rewrite in_map_iff.
  intros ([r' b] & <- & Hin). apply filter_In in Hin. destruct Hin as [Hin _].
  now apply in_combine_l in Hin.
Qed.

End FrameFacts.


Lemma column_inr {I : Type} (df : DataFrame I) label k :
  get_loc label (columns df) = Some k ->
  column label df =
  inr (map (fun r => (fst r, nth k (snd r) None)) (rows df)).
Proof. unfold column. now intros ->. Qed.



Lemma column_loc_isin {I : Type} (df : DataFrame I) label s values :
  column label df = inr s ->
  column label (loc df (Series_isin values s)) =
  inr (filter (fun v => isin values (snd v)) s).
Proof.
  intros C. destruct (column_get_loc _ _ _ C) as [k Hk].
  rewrite (column_inr (loc df _) label k Hk).
  rewrite (loc_isin df label k s values Hk C).
  rewrite (column_inr df label k Hk) in C. injection C as <-.
  f_equal. induction (rows df) as [|r l IH]; [reflexivity|].
  cbn [filter map fst snd].
  match goal with |- context [if ?b then _ else _] => destruct b end;
    cbn [map]; [f_equal|]; exact IH.
Qed.

Lemma reset_index_rows {I : Type} (df : DataFrame I) :
  map fst (rows (reset_index df)) = seq 0 (List.length (rows (reset_index df)))
  /\ map snd (rows (reset_index df)) = map snd (rows df).
Proof.
  unfold reset_index. cbn [rows].
  assert (L : forall s (l : list (list cell)),
             map fst (combine (seq s (List.length l)) l) = seq s (List.length l)
             /\ map snd (combine (seq s (List.length l)) l) = l).
  { intros s l; revert s. induction l as [|c l IH]; intros s; [now split|].
    simpl. destruct (IH (S s)) as [-> ->]. now split. }
  rewrite <- (length_map snd (rows df)) at 1 2.
  destruct (L 0 (map snd (rows df))) as [L1 L2].
  rewrite length_combine, length_seq, Nat.min_id, length_map.
  rewrite <- (length_map snd (rows df)). now split.
Qed.

Lemma map_snd_combine {A B C : Type} (g : B -> C) (la : list A) lb :
  map (fun r => (fst r, g (snd r))) (combine la lb) = combine la (map g lb).
Proof.
  revert lb; induction la as [|a la IH]; intros [|b lb]; simpl; try easy.
  now rewrite IH.
Qed.

Lemma combine_self {A : Type} (l : list A) :
  combine l l = map (fun a => (a, a)) l.
Proof. induction l as [|a l IH]; simpl; [reflexivity|now rewrite IH]. Qed.

(** * Properties of the text replacements *)

(** Removing a character leaves no occurrence of it. *)
Lemma remove_char_none c s :
  contains_char c (Py.str_replace (String c "") "" s) = false.
Proof.
  unfold Py.str_replace, re_sub. generalize true.
  induction s as [|a s IH]; intros bol; [now simp scan|].
  rewrite scan_cons.
  change (match_at (literal c "") bol (String a s))
    with (match_literal c "" bol (String a s)).
  unfold match_literal. simpl strip_prefix.
  destruct (Ascii.eqb_spec c a) as [->|N]; simpl.
  - apply IH.
  - rewrite IH. destruct (Ascii.eqb_spec a c); [congruence|reflexivity].
Qed.

(** * Properties of the loaded tables *)

(** The steps of a load that ended well. *)
Lemma load_data_inv hof w obj :
  load_data hof w = inr obj ->
  exists ptext praw p1 pcol stext sraw s1 scol fp names pc sc,
    players_file w = inr ptext
    /\ read_csv (reader w) ptext year_parser players_types 5 1 = inr praw
    /\ drop ["idx"] praw = inr p1
    /\ column "player" (dropna_all p1) = inr pcol
    /\ set_column "player" (str_replace "*" "" pcol) (dropna_all p1)
       = inr (players obj)
    /\ season_file w = inr stext
    /\ read_csv (reader w) (blank_filter stext) year_parser stats_types 1 1
       = inr sraw
    /\ drop ["blank_1"; "blank_2"; "idx"] sraw = inr s1
    /\ column "player" s1 = inr scol
    /\ set_column "player" (str_replace "*" "" scol) s1 = inr (stats obj)
    /\ query_eq "category" "Player" hof = inr fp
    /\ column "name" fp = inr names
    /\ column "player" (players obj) = inr pc
    /\ column "player" (stats obj) = inr sc
    /\ fame obj = hof
    /\ players_fame obj = loc (players obj) (Series_isin (tolist names) pc)
    /\ stats_fame obj = loc (stats obj) (Series_isin (tolist names) sc).
Proof.
  unfold load_data. intros H.
  inv_bind H. rename s into ptext. inv_bind H. rename d into praw.
  inv_bind H. rename d into p1. inv_bind H. rename s into pcol.
  inv_bind H. rename d into p2. inv_bind H. rename s into stext.
  inv_bind H. rename d into sraw. inv_bind H. rename d into s1.
  inv_bind H. rename s into scol. inv_bind H. rename d into s2.
  inv_bind H. rename d into fp. inv_bind H. rename s into names.
  inv_bind H. rename s into pc. inv_bind H. rename s into sc.
  injection H as <-. simpl.
  exists ptext, praw, p1, pcol, stext, sraw, s1, scol, fp, names, pc, sc.
  repeat split; assumption.
Qed.

Lemma fame_subset_rows hof df pc names fp :
  query_eq "category" "Player" hof = inr fp ->
  column "name" fp = inr names ->
  column "player" df = inr pc ->
  rows (loc df (Series_isin (tolist names) pc)) = filter (in_fame hof df) (rows df).
Proof.
  intros Q N C. destruct (column_get_loc _ _ _ C) as [k Hk].
  rewrite (loc_isin df "player" k pc _ Hk C).
  apply filter_ext. intros r. unfold in_fame, player_of, inductee_players.
  now rewrite Q, N, Hk.
Qed.

(** On a constructed object the two name columns are there. *)
Lemma loaded_columns hof w obj :
  load_data hof w = inr obj ->
  exists pv sv,
    column "player" (players_fame obj) = inr pv
    /\ column "player" (stats obj) = inr sv.
Proof.
  intros H. apply load_data_inv in H.
  destruct H as (ptext & praw & p1 & pcol & stext & sraw & s1 & scol & fp
                 & names & pc & sc & _ & _ & _ & _ & _ & _ & _ & _ & _ & _
                 & _ & _ & Cp & Cs & _ & -> & _).
  destruct (column_get_loc _ _ _ Cp) as [k Hk].
  eexists. exists sc. split; [|exact Cs].
  apply (column_inr (loc (players obj) _) "player" k). exact Hk.
Qed.

(** C2.  Filter-to-fame returns a subset of its table: the rows of
    [players_fame] (of [stats_fame]) are the rows of [players] (of [stats])
    whose player name is the name of an inductee of category Player, in the
    table's order; so every row of the result is a row of the table, and its
    name is among those inductee names. *)
Theorem filter_to_fame_subset hof w obj :
  load_data hof w = inr obj ->
  (rows (players_fame obj) = filter (in_fame hof (players obj)) (rows (players obj))
   /\ rows (stats_fame obj) = filter (in_fame hof (stats obj)) (rows (stats obj)))
  /\ (forall r, In r (rows (players_fame obj)) ->
        In r (rows (players obj))
        /\ In (player_of (players obj) r) (inductee_players hof))
  /\ (forall r, In r (rows (stats_fame obj)) ->
        In r (rows (stats obj))
        /\ In (player_of (stats obj) r) (inductee_players hof)).
Proof.
  intros H. apply load_data_inv in H.
  destruct H as (ptext & praw & p1 & pcol & stext & sraw & s1 & scol & fp
                 & names & pc & sc & _ & _ & _ & _ & _ & _ & _ & _ & _ & _
                 & Q & N & Cp & Cs & _ & -> & ->).
  rewrite (fame_subset_rows hof _ pc names fp Q N Cp).
  rewrite (fame_subset_rows hof _ sc names fp Q N Cs).
  split; [split; reflexivity|].
  split; intros r Hr; apply filter_In in Hr; destruct Hr as [Hr Hf];
    (split; [exact Hr|now apply isin_In]).
Qed.

Lemma filter_to_fame_subset_witness :
  (rows (players_fame sample_obj)
     = filter (in_fame sample_fame (players sample_obj))
              (rows (players sample_obj))
   /\ rows (stats_fame sample_obj)
      = filter (in_fame sample_fame (stats sample_obj))
               (rows (stats sample_obj)))
  /\ (forall r, In r (rows (players_fame sample_obj)) ->
        In r (rows (players sample_obj))
        /\ In (player_of (players sample_obj) r) (inductee_players sample_fame))
  /\ (forall r, In r (rows (stats_fame sample_obj)) ->
        In r (rows (stats sample_obj))
        /\ In (player_of (stats sample_obj) r) (inductee_players sample_fame)).
Proof.
  apply (filter_to_fame_subset sample_fame sample_world sample_obj).
  vm_compute. reflexivity.
Defined.

Lemma star_free_set_column df df' col :
  set_column "player" (str_replace "*" "" col) df = inr df' -> star_free df'.
Proof.
  intros S r name Hr. unfold player_of.
  rewrite (set_column_columns _ _ _ _ S).
  destruct (get_loc "player" (columns df)) as [k|] eqn:Hk; [|discriminate].
  destruct (set_column_cell _ _ _ _ k r Hk S Hr) as [->|Hin]; [discriminate|].
  intros E. rewrite E in Hin. unfold tolist, str_replace in Hin.
  rewrite map_map in Hin. apply in_map_iff in Hin.
  destruct Hin as ([i [y|]] & Hy & _); simpl in Hy; [|discriminate].
  injection Hy as <-. apply remove_char_none.
Qed.

Lemma star_free_loc df mask : star_free df -> star_free (loc df mask).
Proof.
  intros H r name Hr. apply H. now apply (loc_incl df mask).
Qed.

(** No method writes to the object. *)
Lemma run_unchanged ms self : run ms self = self.
Proof.
  unfold run. induction ms as [|m ms IH]; simpl; [reflexivity|].
  now destruct m.
Qed.

(** C5.  After loading, no player name of the biography table or of the
    stats table (nor of their Hall of Fame subsets) contains the character
    [*], whatever the raw names were; and this still holds after any sequence
    of method calls on the object. *)
Theorem names_have_no_asterisk hof w obj ms :
  load_data hof w = inr obj ->
  star_free (players (run ms obj))
  /\ star_free (stats (run ms obj))
  /\ star_free (players_fame (run ms obj))
  /\ star_free (stats_fame (run ms obj)).
Proof.
  intros H. rewrite run_unchanged. apply load_data_inv in H.
  destruct H as (ptext & praw & p1 & pcol & stext & sraw & s1 & scol & fp
                 & names & pc & sc & _ & _ & _ & _ & Sp & _ & _ & _ & _ & Ss
                 & _ & _ & _ & _ & _ & -> & ->).
  pose proof (star_free_set_column _ _ _ Sp) as Fp.
  pose proof (star_free_set_column _ _ _ Ss) as Fs.
  repeat split; try assumption; now apply star_free_loc.
Qed.

Lemma names_have_no_asterisk_witness :
  star_free (players (run [Missing_hall_of_fame; Repr] sample_obj))
  /\ star_free (stats (run [Missing_hall_of_fame; Repr] sample_obj))
  /\ star_free (players_fame (run [Missing_hall_of_fame; Repr] sample_obj))
  /\ star_free (stats_fame (run [Missing_hall_of_fame; Repr] sample_obj)).
Proof.
  apply (names_have_no_asterisk sample_fame sample_world sample_obj).
  vm_compute. reflexivity.
Defined.

(** * Properties of the source reader *)









(** ** The text of a file *)











(** ** Valid fields *)
















(** ** Valid rows *)








(** ** The reader on valid rows *)









(** ** The text of a valid file *)



















(** ** The load of two frames *)



(** ** The loaded tables of valid files *)















(** ** Row counts *)




(** ** A row without a year *)



(** ** The records of the tables *)




(** * Properties of the inductee table *)

Lemma correct_names_rows s records :
  map (fun rv : (nat * list cell) * cell =>
         (fst (fst rv), set_nth 0 (snd rv) (snd (fst rv))))
      (combine
         (combine (seq s (List.length records))
                  (map (fun r : cell * cell => [fst r; snd r]) records))
         (tolist
            (str_replace "Dan Issell" "Dan Issel"
               (map (fun r : nat * list cell => (fst r, nth 0 (snd r) None))
                    (combine (seq s (List.length records))
                             (map (fun r : cell * cell => [fst r; snd r])
                                  records))))))
  = combine (seq s (List.length records))
            (map (fun r : cell * cell => [fst r; snd r])
                 (map correct_name records)).
Proof.
  revert s; induction records as [|r records IH]; intros s; [reflexivity|].
  cbn [List.length seq map combine tolist str_replace fst snd nth set_nth].
  f_equal. apply IH.
Qed.

(** Correcting the name column of a fresh frame of records. *)
Lemma correct_names_frame records :
  (name <- column "name" (DataFrame_of_pairs "name" "category" records) ;;
   set_column "name" (str_replace "Dan Issell" "Dan Issel" name)
     (DataFrame_of_pairs "name" "category" records))
  = inr (DataFrame_of_pairs "name" "category" (map correct_name records)).
Proof.
  unfold column, set_column, DataFrame_of_pairs. cbn [columns rows bind ok].
  cbn [get_loc String.eqb Ascii.eqb Bool.eqb]. cbn [bind ok columns rows].
  rewrite correct_names_rows, length_map. reflexivity.
Qed.

Lemma resolved_fame_pairs w df :
  resolved_fame w = inr df ->
  (exists records, df = DataFrame_of_pairs "name" "category" records)
  \/ df = fame_of_csv [].
Proof.
  unfold resolved_fame.
  destruct (hall_of_fame_csv w) as [e|records].
  - destruct e; try discriminate. unfold scrape_hall_of_fame.
    destruct (hall_of_fame_page w) as [|[tags|]]; try discriminate.
    cbn [bind]. intros [= <-]. left. eexists. reflexivity.
  - intros [= <-]. destruct records as [|r records].
    + now right.
    + left. now exists (r :: records).
Qed.

(** The steps of a construction that ended well. *)
Lemma init_inv w obj :
  __init__ w = inr obj ->
  exists records,
    resolved_fame w = inr (DataFrame_of_pairs "name" "category" records)
    /\ load_data
         (DataFrame_of_pairs "name" "category" (map correct_name records)) w
       = inr obj.
Proof.
  intros H. change (__init__ w) with
    (fame <- resolved_fame w ;;
     name <- column "name" fame ;;
     fame <- set_column "name" (str_replace "Dan Issell" "Dan Issel" name) fame ;;
     load_data fame w) in H.
  inv_bind H. destruct (resolved_fame_pairs w d E) as [[records ->]| ->].
  - exists records. split; [reflexivity|].
    pose proof (correct_names_frame records) as C.
    inv_bind H. cbn [bind] in C. inv_bind H.
    injection C as <-. exact H.
  - discriminate H.
Qed.

Lemma init_fame w obj :
  __init__ w = inr obj ->
  exists records,
    resolved_fame w = inr (DataFrame_of_pairs "name" "category" records)
    /\ fame obj =
       DataFrame_of_pairs "name" "category" (map correct_name records).
Proof.
  intros H. destruct (init_inv w obj H) as (records & R & L).
  exists records. split; [exact R|].
  apply load_data_inv in L.
  destruct L as (? & ? & ? & ? & ? & ? & ? & ? & ? & ? & ? & ? & L).
  now decompose [and] L.
Qed.

(** C3, as stated, fails: the fetch of the cached list fails with an HTTP
    error and the scrape extracts no pair, yet construction succeeds. *)
Lemma empty_scrape_constructs :
  hall_of_fame_csv empty_scrape_world = inl HTTPError
  /\ scraped_pairs empty_scrape_world = Some []
  /\ exists obj, __init__ empty_scrape_world = inr obj /\ rows (fame obj) = [].
Proof.
  split; [reflexivity|]. split; [vm_compute; reflexivity|].
  eexists. split; vm_compute; reflexivity.
Qed.

(** C3, amended.  When the fetch of the cached list fails with an HTTP error
    and the scrape extracts no pair, the resolver raises nothing: it returns
    an empty inductee table, and construction goes on to load the datasets.
    It ends as that load ends: in an exception of the load, or in a complete
    object whose inductee table and Hall of Fame subsets are empty. *)
Theorem empty_scrape_gives_empty_fame w :
  hall_of_fame_csv w = inl HTTPError ->
  scraped_pairs w = Some [] ->
  resolved_fame w = inr (DataFrame_of_pairs "name" "category" [])
  /\ __init__ w = load_data (DataFrame_of_pairs "name" "category" []) w
  /\ forall obj,
       __init__ w = inr obj ->
       rows (fame obj) = []
       /\ rows (players_fame obj) = []
       /\ rows (stats_fame obj) = [].
Proof.
  intros Hc Hs.
  assert (R : resolved_fame w = inr (DataFrame_of_pairs "name" "category" [])).
  { unfold resolved_fame, scrape_hall_of_fame. rewrite Hc.
    unfold scraped_pairs in Hs.
    destruct (hall_of_fame_page w) as [|[tags|]]; try discriminate.
    injection Hs as Hs. cbn [bind]. cbv zeta. rewrite Hs. reflexivity. }
  assert (E : __init__ w = load_data (DataFrame_of_pairs "name" "category" []) w).
  { change (__init__ w) with
      (fame <- resolved_fame w ;;
       name <- column "name" fame ;;
       fame <- set_column "name" (str_replace "Dan Issell" "Dan Issel" name)
                 fame ;;
       load_data fame w).
    rewrite R. reflexivity. }
  split; [exact R|]. split; [exact E|].
  intros obj H. rewrite E in H. apply load_data_inv in H.
  destruct H as (ptext & praw & p1 & pcol & stext & sraw & s1 & scol & fp
                 & names & pc & sc & _ & _ & _ & _ & _ & _ & _ & _ & _ & _
                 & Q & N & Cp & Cs & F & PF & SF).
  rewrite F, PF, SF.
  rewrite (fame_subset_rows _ _ pc names fp Q N Cp).
  rewrite (fame_subset_rows _ _ sc names fp Q N Cs).
  split; [reflexivity|].
  assert (Z : forall df (l : list (string * list cell)),
             filter (in_fame (DataFrame_of_pairs "name" "category" []) df) l
             = []).
  { intros df l. induction l as [|r l IH]; [reflexivity|exact IH]. }
  split; apply Z.
Qed.

Lemma empty_scrape_gives_empty_fame_witness :
  resolved_fame empty_scrape_world
    = inr (DataFrame_of_pairs "name" "category" [])
  /\ __init__ empty_scrape_world
     = load_data (DataFrame_of_pairs "name" "category" []) empty_scrape_world
  /\ forall obj,
       __init__ empty_scrape_world = inr obj ->
       rows (fame obj) = []
       /\ rows (players_fame obj) = []
       /\ rows (stats_fame obj) = [].
Proof.
  apply (empty_scrape_gives_empty_fame empty_scrape_world).
  - reflexivity.
  - vm_compute. reflexivity.
Defined.

(** * Properties of the difference with a dataset *)

Lemma missing_from_rows values s records :
  map (fun r : nat * list cell => (fst r, nth 0 (snd r) None))
    (filter (fun r : nat * list cell =>
               cell_eqb (nth 1 (snd r) None) (Some "Player"))
       (filter (fun r : nat * list cell => negb (existsb isna (snd r)))
          (map (fun rm : (nat * list cell) * list bool =>
                  (fst (fst rm),
                   map (fun cb : cell * bool =>
                          if snd cb then fst cb else None)
                       (combine (snd (fst rm)) (snd rm))))
             (combine
                (combine (seq s (List.length records))
                         (map (fun r : cell * cell => [fst r; snd r]) records))
                (map (map negb)
                   (map (fun r : nat * list cell => map (isin values) (snd r))
                      (combine (seq s (List.length records))
                               (map (fun r : cell * cell => [fst r; snd r])
                                    records))))))))
  = selected (combine (seq s (List.length records)) records) name_of
      (reported_at values).
Proof.
  unfold selected, reported_at, name_of.
  revert s; induction records as [|[n c] records IH]; intros s; [reflexivity|].
  cbn [List.length seq map combine fst snd].
  specialize (IH (S s)). unfold reported in *. cbn [fst snd].
  destruct n as [n|], c as [c|];
    cbn [filter map negb andb existsb isna orb fst snd nth combine];
    repeat first
      [ rewrite IH; reflexivity
      | match goal with
        | |- context [isin values (Some ?x)] => destruct (isin values (Some x))
        | |- context [isin values None] => destruct (isin values None)
        | |- context [cell_eqb (Some ?a) (Some ?b)] =>
            destruct (cell_eqb (Some a) (Some b))
        end;
        cbn [filter map negb andb existsb isna orb fst snd nth combine] ].
Qed.

Lemma missing_from_selected self values records :
  fame self = DataFrame_of_pairs "name" "category" records ->
  missing_from self values =
  inr (selected (indexed records) name_of (reported_at values)).
Proof.
  intros F. unfold missing_from. rewrite F.
  unfold query_eq, column, dropna, where_, invert, DataFrame_isin,
    DataFrame_of_pairs.
  cbn [columns rows bind ok].
  cbn [get_loc String.eqb Ascii.eqb Bool.eqb]. cbn [bind ok columns rows].
  change (get_loc "name" ["name"; "category"]) with (Some 0).
  unfold indexed, ok. now rewrite missing_from_rows.
Qed.

Lemma sorted_filter {X : Type} (f : nat * X -> bool) (l : list (nat * X)) :
  StronglySorted lt (map fst l) -> StronglySorted lt (map fst (filter f l)).
Proof.
  induction l as [|e l IH]; simpl; intros S; [constructor|].
  apply StronglySorted_inv in S. destruct S as [S F].
  destruct (f e); simpl; [|now apply IH].
  constructor; [now apply IH|].
  rewrite Forall_forall in *. intros x Hx. apply F.
  apply in_map_iff in Hx. destruct Hx as (e' & <- & He').
  apply filter_In in He'. apply in_map. tauto.
Qed.

Lemma sorted_no_duplicates l :
  StronglySorted lt l -> has_duplicates l = false.
Proof.
  induction l as [|n l IH]; simpl; intros S; [reflexivity|].
  apply StronglySorted_inv in S. destruct S as [S F].
  rewrite (IH S), orb_false_r.
  destruct (existsb (Nat.eqb n) l) eqn:E; [|reflexivity].
  apply existsb_exists in E. destruct E as (m & Hm & E).
  apply Nat.eqb_eq in E. subst m.
  rewrite Forall_forall in F. specialize (F n Hm). lia.
Qed.

Lemma seq_sorted s n : StronglySorted lt (seq s n).
Proof.
  revert s; induction n as [|n IH]; intros s; simpl; constructor.
  - apply IH.
  - apply Forall_forall. intros x Hx. apply in_seq in Hx. lia.
Qed.

Lemma indexed_labels records :
  map fst (indexed records) = seq 0 (List.length records).
Proof.
  unfold indexed. generalize 0.
  induction records as [|r l IH]; intros s; simpl; [reflexivity|].
  now rewrite IH.
Qed.

Lemma indexed_sorted records : StronglySorted lt (map fst (indexed records)).
Proof. rewrite indexed_labels. apply seq_sorted. Qed.

Section Alignment.

(** Labelled entries in increasing order of their labels, and the value each
    contributes. *)
Context {X : Type}.
Variable ix : list (nat * X).
Hypothesis ix_sorted : StronglySorted lt (map fst ix).
Variable v : nat * X -> cell.

Lemma selected_labels f : map fst (selected ix v f) = map fst (filter f ix).
Proof. unfold selected. rewrite map_map. reflexivity. Qed.

(** Entries are told apart by their labels. *)
Lemma label_inj e e' : In e ix -> In e' ix -> fst e = fst e' -> e = e'.
Proof.
  clear v. revert ix_sorted. induction ix as [|a l IH]; simpl; [tauto|].
  intros S. apply StronglySorted_inv in S. destruct S as [S F].
  rewrite Forall_forall in F.
  intros [->|He] [->|He'] E; try reflexivity.
  - specialize (F (fst e') (in_map fst _ _ He')). lia.
  - specialize (F (fst e) (in_map fst _ _ He)). lia.
  - now apply IH.
Qed.

Lemma selected_at f e :
  In e ix -> at_label (selected ix v f) (fst e) = if f e then v e else None.
Proof.
  intros He. unfold at_label.
  destruct (find (fun u => Nat.eqb (fst u) (fst e)) (selected ix v f))
    as [u|] eqn:Fd.
  - apply find_some in Fd. destruct Fd as [Hu E]. apply Nat.eqb_eq in E.
    unfold selected in Hu. apply in_map_iff in Hu.
    destruct Hu as (e' & <- & He'). apply filter_In in He'.
    destruct He' as [He' Hf]. simpl in E.
    rewrite <- (label_inj e' e He' He E). now rewrite Hf.
  - destruct (f e) eqn:Hf; [|reflexivity].
    exfalso. pose proof (find_none _ _ Fd (fst e, v e)) as N.
    simpl in N. rewrite Nat.eqb_refl in N. 
    assert (In (fst e, v e) (selected ix v f)); [|intuition discriminate].
    unfold selected. apply in_map_iff. exists e. split; [reflexivity|].
    apply filter_In. now split.
Qed.

Lemma selected_has_label f e :
  In e ix -> (In (fst e) (map fst (selected ix v f)) <-> f e = true).
Proof.
  intros He. rewrite selected_labels. rewrite in_map_iff. split.
  - intros (e' & E & He'). apply filter_In in He'. destruct He' as [He' Hf].
    now rewrite <- (label_inj e' e He' He E).
  - intros Hf. exists e. split; [reflexivity|]. apply filter_In. now split.
Qed.

Lemma has_label_selected f e :
  In e ix -> has_label (selected ix v f) (fst e) = f e.
Proof.
  intros He. pose proof (selected_has_label f e He) as H.
  unfold has_label. destruct (f e).
  - apply existsb_exists. exists (fst e). split; [now apply H|].
    apply Nat.eqb_refl.
  - destruct (existsb _ _) eqn:E; [|reflexivity].
    apply existsb_exists in E. destruct E as (x & Hx & E).
    apply Nat.eqb_eq in E. subst x. apply H in Hx. discriminate.
Qed.

Lemma filter_filter_in {A : Type} (g h q : A -> bool) (l : list A) :
  (forall a, In a l -> g a = h a) ->
  filter g (filter q l) = filter (fun a => (q a && h a)%bool) l.
Proof.
  induction l as [|a l IH]; intros E; [reflexivity|].
  cbn [filter]. destruct (q a); cbn [andb filter].
  - rewrite (E a (or_introl eq_refl)).
    destruct (h a); [f_equal|]; apply IH; intros x Hx; apply E; now right.
  - apply IH. intros x Hx. apply E. now right.
Qed.

(** The entries of the second selection that the first has too, and those
    it does not have. *)
Lemma shared_selected (p q : nat * X -> bool) :
  shared (selected ix v p) (selected ix v q) =
  selected ix v (fun e => (q e && p e)%bool).
Proof.
  unfold shared, selected at 2 3. rewrite filter_map_swap. cbn [fst].
  f_equal. apply filter_filter_in. intros e He.
  now apply has_label_selected.
Qed.

Lemma only_in_selected (p q : nat * X -> bool) :
  only_in (selected ix v p) (selected ix v q) =
  selected ix v (fun e => (q e && negb (p e))%bool).
Proof.
  unfold only_in, selected at 2 3. rewrite filter_map_swap. cbn [fst].
  f_equal. apply filter_filter_in. intros e He.
  now rewrite has_label_selected.
Qed.

(** The rows of two selections aligned on their labels. *)
Lemma aligned_rows (p q : nat * X -> bool) :
  map (fun i => (i, [at_label (selected ix v p) i; at_label (selected ix v q) i]))
      (map fst (selected ix v p)
       ++ filter (fun i => negb (has_label (selected ix v p) i))
                 (map fst (selected ix v q)))
  = side_by_side ix v p q.
Proof.
  unfold side_by_side. rewrite map_app. f_equal.
  - rewrite selected_labels, map_map. apply map_ext_in. intros e He.
    apply filter_In in He. destruct He as [He Hp].
    now rewrite !(selected_at _ e He), Hp.
  - rewrite selected_labels, filter_map_swap.
    rewrite (filter_filter_in _ (fun e => negb (p e)))
      by (intros e He; now rewrite has_label_selected).
    rewrite map_map. apply map_ext_in. intros e He.
    apply filter_In in He. destruct He as [He Hq].
    apply andb_prop in Hq. destruct Hq as [Hq Hp].
    apply negb_true_iff in Hp.
    now rewrite !(selected_at _ e He), Hp, Hq.
Qed.

Lemma concat_selected (p q : nat * X -> bool) :
  concat_axis1 (selected ix v p) (selected ix v q) =
  inr {| columns := ["0"; "1"]; rows := side_by_side ix v p q |}.
Proof.
  unfold concat_axis1.
  destruct (list_eq_dec Nat.eq_dec (map fst (selected ix v p))
              (map fst (selected ix v q))) as [E|N].
  - assert (PQ : forall e, In e ix -> p e = q e).
    { intros e He. pose proof (selected_has_label p e He) as Hp.
      pose proof (selected_has_label q e He) as Hq. rewrite E in Hp.
      destruct (p e), (q e); intuition congruence. }
    unfold ok. do 2 f_equal. unfold side_by_side, selected.
    rewrite (filter_ext_in p q ix PQ).
    rewrite (filter_ext_in (fun e => (q e && negb (p e))%bool)
               (fun _ => false) ix)
      by (intros e He; rewrite (PQ e He); apply andb_negb_r).
    rewrite combine_self, !map_map. cbn [fst snd].
    replace (filter (fun _ => false) ix) with (@nil (nat * X))
      by (clear; induction ix as [|a l IH]; [reflexivity|exact IH]).
    cbn [map]. rewrite app_nil_r.
    apply map_ext_in. intros e He. apply filter_In in He.
    destruct He as [He Hq]. now rewrite Hq.
  - rewrite !selected_labels.
    rewrite !(sorted_no_duplicates _ (sorted_filter _ _ ix_sorted)).
    cbn [orb]. unfold ok. do 2 f_equal.
    rewrite <- !selected_labels with (f := p), <- selected_labels with (f := q).
    apply aligned_rows.
Qed.

Lemma side_by_side_aligned (p q : nat * X -> bool) :
  map snd (side_by_side ix v p q) =
  aligned (selected ix v p) (selected ix v q).
Proof.
  rewrite <- aligned_rows, map_map. reflexivity.
Qed.

Lemma present_selected f :
  (forall e, f e = true -> isna (v e) = false) ->
  present (map v (filter f ix)) = map v (filter f ix).
Proof.
  intros P. unfold present. clear ix_sorted.
  induction ix as [|e l IH]; [reflexivity|].
  cbn [filter]. destruct (f e) eqn:F; [|exact IH].
  cbn [map filter]. rewrite (P e F). cbn [negb]. now rewrite IH.
Qed.

Lemma present_both f g :
  (forall e, g e = true -> isna (v e) = false) ->
  present (map (fun e => if g e then v e else None) (filter f ix)) =
  map v (filter (fun e => (g e && f e)%bool) ix).
Proof.
  intros P. unfold present. clear ix_sorted.
  induction ix as [|e l IH]; [reflexivity|].
  cbn [filter]. destruct (f e) eqn:F, (g e) eqn:G; cbn [andb]; try exact IH.
  - cbn [map filter]. rewrite G, (P e G). cbn [negb]. now rewrite IH.
  - cbn [map filter]. rewrite G. cbn [isna negb]. exact IH.
Qed.

Lemma side_by_side_present (p q : nat * X -> bool) :
  (forall e, p e = true -> isna (v e) = false) ->
  (forall e, q e = true -> isna (v e) = false) ->
  present (map (fun r => nth 0 (snd r) None) (side_by_side ix v p q)) =
    tolist (selected ix v p)
  /\ present (map (fun r => nth 1 (snd r) None) (side_by_side ix v p q)) =
    (tolist (shared (selected ix v p) (selected ix v q))
     ++ tolist (only_in (selected ix v p) (selected ix v q)))%list.
Proof.
  intros Pp Pq. rewrite shared_selected, only_in_selected.
  unfold side_by_side, selected, tolist, present.
  rewrite !map_app, !filter_app, !map_map. cbn [snd nth].
  split.
  - replace (filter _ (map (fun _ => None) _)) with (@nil cell).
    + rewrite app_nil_r. exact (present_selected p Pp).
    + clear. induction (filter _ ix) as [|a l IH]; [reflexivity|exact IH].
  - apply f_equal2.
    + exact (present_both p q Pq).
    + refine (present_selected (fun e => (q e && negb (p e))%bool) _).
      intros e H. apply andb_prop in H. now apply Pq.
Qed.

End Alignment.

Lemma reported_present values e :
  reported_at values e = true -> isna (name_of e) = false.
Proof.
  unfold reported_at, reported, name_of.
  destruct (fst (snd e)); [reflexivity|discriminate].
Qed.

Lemma missing_hall_of_fame_table self records pv sv :
  fame self = DataFrame_of_pairs "name" "category" records ->
  column "player" (players_fame self) = inr pv ->
  column "player" (stats self) = inr sv ->
  missing_hall_of_fame self =
  inr (missing_table records (tolist pv) (unique sv)).
Proof.
  intros F P S. unfold missing_hall_of_fame.
  rewrite P. cbn [bind]. rewrite (missing_from_selected _ _ _ F). cbn [bind].
  rewrite S. cbn [bind]. rewrite (missing_from_selected _ _ _ F). cbn [bind].
  rewrite (concat_selected _ (indexed_sorted records)). reflexivity.
Qed.


Lemma indexed_In records r :
  In r records -> exists i, In (i, r) (indexed records).
Proof.
  unfold indexed. generalize 0.
  induction records as [|r' l IH]; intros s; simpl; [tauto|].
  intros [->|H].
  - exists s. now left.
  - destruct (IH (S s) H) as [i Hi]. exists i. now right.
Qed.

(** Outside the defect of C1 (no name of the dataset is the text [Player]),
    a name is reported exactly when it is the name of an inductee record of
    category Player and not a name of the dataset. *)
Lemma missing_from_iff self values records no :
  fame self = DataFrame_of_pairs "name" "category" records ->
  missing_from self values = inr no ->
  ~ In (Some "Player") values ->
  forall n,
    In (Some n) (tolist no) <->
    In (Some n, Some "Player") records /\ ~ In (Some n) values.
Proof.
  intros F M NP n. rewrite (missing_from_selected _ _ _ F) in M.
  injection M as <-. unfold tolist, selected. rewrite map_map. cbn [snd].
  rewrite in_map_iff. split.
  - intros ([i [x c]] & E & He). apply filter_In in He.
    destruct He as [He R]. unfold name_of in E. cbn [fst snd] in E. subst x.
    unfold reported_at, reported in R. cbn [fst snd] in R.
    repeat (apply andb_prop in R; destruct R as [R ?]).
    match goal with H : cell_eqb c _ = true |- _ =>
      apply cell_eqb_eq in H; subst c end.
    split.
    + unfold indexed in He. now apply in_combine_r in He.
    + intros Hin. apply isin_In in Hin.
      match goal with H : negb (isin values (Some n)) = true |- _ =>
        rewrite Hin in H; discriminate H end.
  - intros [Hr Hn]. destruct (indexed_In _ _ Hr) as [i Hi].
    exists (i, (Some n, Some "Player")). split; [reflexivity|].
    apply filter_In. split; [exact Hi|].
    unfold reported_at, reported. cbn [fst snd isna negb andb].
    destruct (isin values (Some n)) eqn:E1;
      [apply isin_In in E1; contradiction|].
    destruct (isin values (Some "Player")) eqn:E2;
      [apply isin_In in E2; contradiction|].
    reflexivity.
Qed.

Lemma inductee_players_pairs records :
  inductee_players (DataFrame_of_pairs "name" "category" records) =
  map fst (filter (fun r => cell_eqb (snd r) (Some "Player")) records).
Proof.
  unfold inductee_players, query_eq, column, DataFrame_of_pairs, ok.
  cbn [columns rows].
  change (get_loc "category" ["name"; "category"]) with (Some 1).
  cbn [columns rows].
  change (get_loc "name" ["name"; "category"]) with (Some 0).
  unfold tolist. rewrite map_map. cbn [fst snd].
  assert (G : forall s,
             map (fun x : nat * list cell => nth 0 (snd x) None)
               (filter (fun r : nat * list cell =>
                          cell_eqb (nth 1 (snd r) None) (Some "Player"))
                  (combine (seq s (List.length records))
                     (map (fun r : cell * cell => [fst r; snd r]) records)))
             = map fst (filter (fun r => cell_eqb (snd r) (Some "Player"))
                               records)).
  { induction records as [|[n c] l IH]; intros s; [reflexivity|].
    cbn [List.length seq map combine filter fst snd nth].
    destruct (cell_eqb c (Some "Player")); cbn [map fst snd nth];
      now rewrite IH. }
  apply G.
Qed.

Lemma inductee_players_In records n :
  In (Some n) (inductee_players (DataFrame_of_pairs "name" "category" records))
  <-> In (Some n, Some "Player") records.
Proof.
  rewrite inductee_players_pairs, in_map_iff. split.
  - intros ([x c] & E & H). apply filter_In in H. destruct H as [H C].
    cbn [fst snd] in *. apply cell_eqb_eq in C. now subst.
  - intros H. exists (Some n, Some "Player"). split; [reflexivity|].
    apply filter_In. now split.
Qed.

Lemma unique_cells_In seen l c :
  In c (unique_cells seen l) <-> In c l /\ ~ In c seen.
Proof.
  revert seen; induction l as [|x l IH]; intros seen; simpl; [tauto|].
  destruct (existsb (cell_eqb x) seen) eqn:E.
  - rewrite IH. apply (isin_In seen x) in E. intuition congruence.
  - assert (N : ~ In x seen).
    { intros H. apply (isin_In seen x) in H. unfold isin in H. congruence. }
    simpl. rewrite IH. simpl.
    destruct (cell_eqb c x) eqn:D.
    + apply cell_eqb_eq in D. subst c. tauto.
    + assert (c <> x) by (intros ->; now rewrite (proj2 (cell_eqb_eq x x)) in D).
      intuition congruence.
Qed.

Lemma unique_In {I : Type} (s : Series I) c : In c (unique s) <-> In c (tolist s).
Proof. unfold unique. rewrite unique_cells_In. simpl. tauto. Qed.

(** Outside the defect of C1, [missing_hall_of_fame] is consistent for both
    datasets: a name is reported for a dataset exactly when it is the name of
    an inductee of category Player and not a name of that dataset. *)
Lemma missing_names_unless_a_player_is_named_Player
  w obj pc pv sv no_players no_stats :
  __init__ w = inr obj ->
  column "player" (players obj) = inr pc ->
  column "player" (players_fame obj) = inr pv ->
  column "player" (stats obj) = inr sv ->
  missing_from obj (tolist pv) = inr no_players ->
  missing_from obj (unique sv) = inr no_stats ->
  (~ In (Some "Player") (tolist pv) ->
   forall n,
     In (Some n) (tolist no_players) <->
     In (Some n) (inductee_players (fame obj)) /\ ~ In (Some n) (tolist pc))
  /\ (~ In (Some "Player") (tolist sv) ->
      forall n,
        In (Some n) (tolist no_stats) <->
        In (Some n) (inductee_players (fame obj)) /\ ~ In (Some n) (tolist sv)).
Proof.
  intros H Cpc Cpv Csv Mp Ms.
  destruct (init_inv w obj H) as (records1 & _ & L).
  set (records := map correct_name records1) in *.
  apply load_data_inv in L.
  destruct L as (ptext & praw & p1 & pcol & stext & sraw & s1 & scol & fp
                 & names & pc' & sc' & _ & _ & _ & _ & _ & _ & _ & _ & _ & _
                 & Q & N & Cp & _ & F & PF & _).
  rewrite Cpc in Cp. injection Cp as <-.
  assert (IP : inductee_players (fame obj) = tolist names).
  { unfold inductee_players. now rewrite F, Q, N. }
  rewrite PF, (column_loc_isin _ _ _ _ Cpc) in Cpv. injection Cpv as <-.
  split; intros NP n.
  - rewrite (missing_from_iff obj _ records no_players F Mp NP n).
    rewrite F at 1. rewrite inductee_players_In.
    split; intros [Hr Hn]; (split; [exact Hr|]); intros Hin; apply Hn.
    + unfold tolist in *. apply in_map_iff in Hin.
      destruct Hin as ([i c] & E & Hin). cbn [snd] in E. subst c.
      apply in_map_iff. exists (i, Some n). split; [reflexivity|].
      apply filter_In. split; [exact Hin|]. cbn [snd].
      apply isin_In. rewrite <- IP, F.
      now apply inductee_players_In.
    + unfold tolist in *. apply in_map_iff in Hin.
      destruct Hin as ([i c] & E & Hin). cbn [snd] in E. subst c.
      apply filter_In in Hin. destruct Hin as [Hin _].
      apply in_map_iff. now exists (i, Some n).
  - assert (NP' : ~ In (Some "Player") (unique sv)) by now rewrite unique_In.
    rewrite (missing_from_iff obj _ records no_stats F Ms NP' n).
    rewrite F at 1. now rewrite inductee_players_In, unique_In.
Qed.

(** C1.  The code at the failing input: Bill Russell is an inductee of
    category Player and no row of the stats dataset has his name, yet he is
    not reported missing from it, because that dataset has a row whose name is
    the text [Player]: the frame-wide [isin] also blanks the category cell of
    every inductee, and [dropna] then drops every row. *)
Theorem missing_hall_of_fame_player_named_Player :
  exists obj sv no_stats,
    __init__ named_player_world = inr obj
    /\ inductee_players (fame obj) = [Some "Bill Russell"]
    /\ column "player" (stats obj) = inr sv
    /\ tolist sv = [Some "Player"]
    /\ missing_from obj (unique sv) = inr no_stats
    /\ tolist no_stats = []
    /\ missing_hall_of_fame obj =
       inr {| columns := ["player_dataset"; "stats_dataset"]; rows := [] |}.
Proof.
  do 3 eexists.
  split; [vm_compute; reflexivity|].
  split; [vm_compute; reflexivity|].
  split; [vm_compute; reflexivity|].
  split; [vm_compute; reflexivity|].
  split; [vm_compute; reflexivity|].
  split; vm_compute; reflexivity.
Qed.

(** C9, as stated, fails: with one inductee missing from each dataset, the
    table has two rows, each with one name and one NaN, where padding the
    shorter of the two one-name sequences would give a single row with both
    names. *)
Lemma missing_hall_of_fame_not_padded :
  exists obj pv sv no_players no_stats df,
    __init__ two_players_world = inr obj
    /\ column "player" (players_fame obj) = inr pv
    /\ missing_from obj (tolist pv) = inr no_players
    /\ column "player" (stats obj) = inr sv
    /\ missing_from obj (unique sv) = inr no_stats
    /\ missing_hall_of_fame obj = inr df
    /\ map snd (rows df) = [[Some "Bob Cousy"; None]; [None; Some "Bill Russell"]]
    /\ padded (tolist no_players) (tolist no_stats)
       = [[Some "Bob Cousy"; Some "Bill Russell"]]
    /\ map snd (rows df) <> padded (tolist no_players) (tolist no_stats).
Proof.
  do 6 eexists.
  split; [vm_compute; reflexivity|].
  split; [vm_compute; reflexivity|].
  split; [vm_compute; reflexivity|].
  split; [vm_compute; reflexivity|].
  split; [vm_compute; reflexivity|].
  split; [vm_compute; reflexivity|].
  split; [vm_compute; reflexivity|].
  split; [vm_compute; reflexivity|].
  vm_compute. discriminate.
Qed.

(** Nor does the second column keep the order of its result: the stats
    result lists Bill Russell before Bob Cousy, the column Bob Cousy, whom
    the player result has too, before Bill Russell. *)
Lemma missing_hall_of_fame_reorders :
  exists sv no_stats df,
    column "player" (stats second_first_obj) = inr sv
    /\ missing_from second_first_obj (unique sv) = inr no_stats
    /\ missing_hall_of_fame second_first_obj = inr df
    /\ tolist no_stats = [Some "Bill Russell"; Some "Bob Cousy"]
    /\ map snd (rows df)
       = [[Some "Bob Cousy"; Some "Bob Cousy"]; [None; Some "Bill Russell"]].
Proof.
  do 3 eexists.
  split; [vm_compute; reflexivity|].
  split; [vm_compute; reflexivity|].
  split; [vm_compute; reflexivity|].
  split; vm_compute; reflexivity.
Qed.

(** C9, amended.  On a constructed object [missing_hall_of_fame] returns a
    table of the two columns [player_dataset] and [stats_dataset], in that
    order, on the index 0, 1, ...  The two underlying result sequences are
    not padded but aligned on the labels their entries carry from the
    inductee table: the table has one row for each entry of the player
    result, in its order, and after them one row for each entry of the stats
    result whose label the player result does not have, in its order; a row
    holds in each column the name the result of that column has at the
    label, or NaN when it has none.  So the two columns have the same
    length; the names of the first column, read top to bottom, are those of
    the player result in its order; the names of the second column are those
    of the stats result, but first the ones whose label the player result
    has too and then the others, each group in the order of the result. *)
Theorem missing_hall_of_fame_aligned w obj :
  __init__ w = inr obj ->
  exists pv sv no_players no_stats df,
    column "player" (players_fame obj) = inr pv
    /\ missing_from obj (tolist pv) = inr no_players
    /\ column "player" (stats obj) = inr sv
    /\ missing_from obj (unique sv) = inr no_stats
    /\ missing_hall_of_fame obj = inr df
    /\ columns df = ["player_dataset"; "stats_dataset"]
    /\ map fst (rows df) = seq 0 (List.length (rows df))
    /\ map snd (rows df) = aligned no_players no_stats
    /\ present (column_values 0 df) = tolist no_players
    /\ present (column_values 1 df) =
       (tolist (shared no_players no_stats)
        ++ tolist (only_in no_players no_stats))%list.
Proof.
  intros H. destruct (init_inv w obj H) as (records1 & _ & L).
  set (records := map correct_name records1) in *.
  assert (F : fame obj = DataFrame_of_pairs "name" "category" records).
  { apply load_data_inv in L.
    destruct L as (? & ? & ? & ? & ? & ? & ? & ? & ? & ? & ? & ? & L).
    now decompose [and] L. }
  destruct (loaded_columns _ _ _ L) as (pv & sv & P & S).
  exists pv, sv. do 2 eexists. exists (missing_table records (tolist pv) (unique sv)).
  split; [exact P|].
  split; [apply (missing_from_selected _ _ _ F)|].
  split; [exact S|].
  split; [apply (missing_from_selected _ _ _ F)|].
  split; [apply (missing_hall_of_fame_table _ _ _ _ F P S)|].
  split; [reflexivity|].
  unfold missing_table, column_values.
  destruct (reset_index_rows
              (rename [("0", "player_dataset"); ("1", "stats_dataset")]
                 {| columns := ["0"; "1"];
                    rows := side_by_side (indexed records) name_of
                              (reported_at (tolist pv))
                              (reported_at (unique sv)) |})) as [R1 R2].
  split; [exact R1|].
  split.
  - rewrite R2. cbn [rename rows].
    apply (side_by_side_aligned _ (indexed_sorted records)).
  - assert (M : forall k (l : list (nat * list cell)),
               map (fun r => nth k (snd r) None) l
               = map (fun c => nth k c None) (map snd l))
      by (intros; now rewrite map_map).
    rewrite !M, R2. cbn [rename rows]. rewrite <- !M.
    apply (side_by_side_present _ (indexed_sorted records));
      apply reported_present.
Qed.

Lemma missing_hall_of_fame_aligned_witness :
  exists pv sv no_players no_stats df,
    column "player" (players_fame second_first_obj) = inr pv
    /\ missing_from second_first_obj (tolist pv) = inr no_players
    /\ column "player" (stats second_first_obj) = inr sv
    /\ missing_from second_first_obj (unique sv) = inr no_stats
    /\ missing_hall_of_fame second_first_obj = inr df
    /\ columns df = ["player_dataset"; "stats_dataset"]
    /\ map fst (rows df) = seq 0 (List.length (rows df))
    /\ map snd (rows df) = aligned no_players no_stats
    /\ present (column_values 0 df) = tolist no_players
    /\ present (column_values 1 df) =
       (tolist (shared no_players no_stats)
        ++ tolist (only_in no_players no_stats))%list.
Proof.
  apply (missing_hall_of_fame_aligned second_first_world second_first_obj).
  vm_compute. reflexivity.
Defined.
(** * Properties of the corrected spelling *)



(** The correction is of the inductee table only: a dataset that itself
    spells the name [Dan Issell] keeps its rows as they are, outside the Hall
    of Fame subsets, and the inductee is reported missing. *)
Lemma dataset_spelling_is_kept :
  exists obj,
    __init__ misspelt_dataset_world = inr obj
    /\ map (player_of (players obj)) (rows (players obj)) = [Some "Dan Issell"]
    /\ rows (players_fame obj) = []
    /\ rows (stats_fame obj) = []
    /\ missing_hall_of_fame obj =
       inr {| columns := ["player_dataset"; "stats_dataset"];
              rows := [(0, [Some "Dan Issel"; Some "Dan Issel"])] |}.
Proof.
  eexists. split; [vm_compute; reflexivity|].
  split; [vm_compute; reflexivity|].
  split; [vm_compute; reflexivity|].
  split; vm_compute; reflexivity.
Qed.

(** * Properties of the scraped inductee table *)

(** Removing the characters of a class, as [re.sub] does it. *)
Lemma re_sub_class f s : re_sub (class f) "" s = remove_chars f s.
Proof.
  unfold re_sub. generalize true.
  induction s as [|a s IH]; intros bol; [now simp scan|].
  rewrite scan_cons.
  change (match_at (class f) bol (String a s))
    with (match_class f bol (String a s)).
  cbn [match_class remove_chars].
  destruct (f a); cbn [emit append]; now rewrite IH.
Qed.

Lemma all_in_remove_chars f s :
  all_in (fun a => negb (f a)) (remove_chars f s) = true.
Proof.
  induction s as [|a s IH]; [reflexivity|]. cbn [remove_chars].
  destruct (f a) eqn:E; [exact IH|]. cbn [all_in]. now rewrite E, IH.
Qed.

Lemma all_in_remove_chars_kept p f s :
  all_in p s = true -> all_in p (remove_chars f s) = true.
Proof.
  induction s as [|a s IH]; [reflexivity|]. cbn [remove_chars all_in].
  intros H. apply andb_prop in H. destruct H as [H1 H2].
  destruct (f a); [now apply IH|]. cbn [all_in]. now rewrite H1, IH.
Qed.

Lemma all_in_and p q s :
  all_in p s = true -> all_in q s = true ->
  all_in (fun a => (p a && q a)%bool) s = true.
Proof.
  induction s as [|a s IH]; [reflexivity|]. cbn [all_in].
  intros H1 H2. apply andb_prop in H1, H2.
  destruct H1 as [-> H1], H2 as [-> H2]. now rewrite IH.
Qed.

(** X8.  When the page has the section of inductees the scrape raises
    nothing, whatever the paragraphs.  Its table has the columns [name] and
    [category] and the index 0, 1, ...; its names are the first groups of the
    matches but the first match, in order; and no category holds a
    whitespace character or a comma. *)
Theorem scraped_table w tags :
  hall_of_fame_page w = inr (Some tags) ->
  exists df,
    scrape_hall_of_fame w = inr df
    /\ columns df = ["name"; "category"]
    /\ map fst (rows df) = seq 0 (List.length (rows df))
    /\ map (fun r => nth 0 (snd r) None) (rows df) =
       map (fun x => Some (nth 0 x ""))
           (tl (re_findall member (str_tags tags)))
    /\ forall r, In r (rows df) ->
         exists n c,
           snd r = [Some n; Some c]
           /\ all_in (fun a => (negb (is_space a) && negb (is_comma a))%bool) c
              = true.
Proof.
  intros P. unfold scrape_hall_of_fame. rewrite P. cbn [bind].
  eexists. split; [reflexivity|]. unfold DataFrame_of_pairs. cbn [columns rows].
  set (members := tl (re_findall member (str_tags tags))).
  rewrite !map_map. cbn [fst snd].
  split; [reflexivity|]. split; [|split].
  - rewrite length_combine, length_seq, !length_map, Nat.min_id.
    assert (G : forall (A : Type) (f : list string -> A) s l,
               map fst (combine (seq s (List.length l)) (map f l))
               = seq s (List.length l)).
    { intros A f s l. revert s. induction l as [|x l IH]; intros s;
        [reflexivity|]. cbn [List.length seq map combine fst]. now rewrite IH. }
    apply G.
  - rewrite length_map.
    assert (G : forall s (l : list (list string)) (f g : list string -> cell),
               map (fun r : nat * list cell => nth 0 (snd r) None)
                 (combine (seq s (List.length l))
                    (map (fun x => [f x; g x]) l))
               = map f l).
    { intros s l f g. revert s. induction l as [|x l IH]; intros s;
        [reflexivity|]. cbn [List.length seq map combine snd nth].
        now rewrite IH. }
    apply G.
  - intros [i cs] Hr. apply in_combine_r in Hr. apply in_map_iff in Hr.
    destruct Hr as (x & <- & _). cbn [snd]. do 2 eexists. split; [reflexivity|].
    rewrite !re_sub_class. apply all_in_and.
    + apply all_in_remove_chars_kept, all_in_remove_chars.
    + apply all_in_remove_chars.
Qed.

Lemma scraped_table_witness :
  exists df,
    scrape_hall_of_fame page_world = inr df
    /\ columns df = ["name"; "category"]
    /\ map fst (rows df) = seq 0 (List.length (rows df))
    /\ map (fun r => nth 0 (snd r) None) (rows df) =
       map (fun x => Some (nth 0 x ""))
           (tl (re_findall member (str_tags (map paragraph_of page_pairs))))
    /\ forall r, In r (rows df) ->
         exists n c,
           snd r = [Some n; Some c]
           /\ all_in (fun a => (negb (is_space a) && negb (is_comma a))%bool) c
              = true.
Proof.
  apply (scraped_table page_world (map paragraph_of page_pairs)). reflexivity.
Defined.

(** ** The paragraphs the pattern reads whole *)

Lemma contains_suffix p h t :
  contains p (h ++ t) = false -> strip_prefix p t = None.
Proof.
  induction h as [|a h IH]; cbn [append].
  - destruct t as [|b t]; cbn [contains];
      destruct (strip_prefix p _); congruence.
  - cbn [contains]. destruct (strip_prefix p (String a (h ++ t)));
      [discriminate|exact IH].
Qed.

Lemma strip_prefix_app p s : strip_prefix p (p ++ s) = Some s.
Proof.
  induction p as [|a p IH]; cbn [append strip_prefix]; [reflexivity|].
  now rewrite Ascii.eqb_refl.
Qed.

Ltac straddle H :=
  repeat match type of H with
         | context [Ascii.eqb ?a ?b] =>
             destruct (Ascii.eqb_spec a b); try discriminate H; subst
         end.

(** A closing tag cannot begin inside a text and end inside the closing tag
    that follows the text: an occurrence that begins in the text lies in
    it. *)
Lemma closing_b_inside t rest r :
  strip_prefix "</b>" (t ++ "</b>" ++ rest) = Some r -> t <> "" ->
  exists r', strip_prefix "</b>" t = Some r'.
Proof.
  intros H N.
  destruct t as [|a [|b [|c [|d t]]]]; [congruence| | | |];
    cbn [append strip_prefix] in H |- *; straddle H;
    cbn [strip_prefix]; rewrite ?Ascii.eqb_refl; eauto.
Qed.

Lemma closing_p_inside t rest r :
  strip_prefix "</p>" (t ++ "</p>" ++ rest) = Some r -> t <> "" ->
  exists r', strip_prefix "</p>" t = Some r'.
Proof.
  intros H N.
  destruct t as [|a [|b [|c [|d t]]]]; [congruence| | | |];
    cbn [append strip_prefix] in H |- *; straddle H;
    cbn [strip_prefix]; rewrite ?Ascii.eqb_refl; eauto.
Qed.

Lemma nl_free_cons c s :
  nl_free (String c s) = true -> Ascii.eqb c nl = false /\ nl_free s = true.
Proof.
  unfold nl_free. cbn [contains_char]. intros H.
  apply negb_true_iff, orb_false_iff in H. destruct H as [H1 H2].
  split; [exact H1|]. now rewrite H2.
Qed.

(** The lazy group stops at the first place where the rest of the pattern
    matches. *)
Lemma dot_plus_lazy_first {R : Type} (k : string -> string -> option R)
  acc t rest res :
  t <> "" -> nl_free t = true ->
  (forall h t', t = h ++ t' -> h <> "" -> t' <> "" ->
     k (acc ++ h) (t' ++ rest) = None) ->
  k (acc ++ t) rest = Some res ->
  dot_plus_lazy k acc (t ++ rest) = Some res.
Proof.
  revert acc; induction t as [|c t IH]; intros acc N F Hn Hk; [congruence|].
  apply nl_free_cons in F. destruct F as [Fc F].
  cbn [append dot_plus_lazy]. rewrite Fc.
  destruct t as [|c' t].
  - cbn [append]. now rewrite Hk.
  - rewrite (Hn (String c "") (String c' t)); [|reflexivity|discriminate..].
    apply IH; [discriminate|exact F| |].
    + intros h t' E Nh Nt. rewrite append_assoc. cbn [append].
      apply (Hn (String c h) t'); [|discriminate|exact Nt].
      cbn [append]. now rewrite E.
    + rewrite append_assoc. exact Hk.
Qed.

Lemma plain_inv delimiter s :
  plain delimiter s = true ->
  s <> "" /\ nl_free s = true /\ contains delimiter s = false.
Proof.
  unfold plain. intros H. apply andb_prop in H. destruct H as [H H3].
  apply andb_prop in H. destruct H as [H1 H2].
  repeat split.
  - intros ->. discriminate.
  - exact H2.
  - now apply negb_true_iff.
Qed.

(** The pattern matches a well-formed paragraph whole, with its name and its
    description as the groups. *)
Lemma match_member_paragraph bol n d rest :
  plain "</b>" n = true -> plain "</p>" d = true ->
  match_member bol (paragraph n d ++ rest) =
  Some (paragraph n d, [n; d], rest).
Proof.
  intros Pn Pd. apply plain_inv in Pn, Pd.
  destruct Pn as (Nn & Fn & Cn), Pd as (Nd & Fd & Cd).
  unfold paragraph. rewrite !append_assoc.
  change ("<p> <b>" ++ n ++ "</b>" ++ d ++ "</p>" ++ rest)
    with ("<p>" ++ String " " ("<b>" ++ n ++ "</b>" ++ d ++ "</p>" ++ rest)).
  unfold match_member. rewrite strip_prefix_app. cbv iota.
  change (is_space " ") with true. cbv iota.
  rewrite strip_prefix_app. cbv iota.
  apply dot_plus_lazy_first; [exact Nn|exact Fn| |].
  - intros h t' E Nh Nt.
    destruct (strip_prefix "</b>" (t' ++ "</b>" ++ d ++ "</p>" ++ rest))
      as [r|] eqn:S; [|reflexivity].
    exfalso. destruct (closing_b_inside _ _ _ S Nt) as [r' S'].
    rewrite E in Cn. apply contains_suffix in Cn. congruence.
  - cbv beta. change ("" ++ n) with n. rewrite strip_prefix_app. cbv iota.
    apply dot_plus_lazy_first; [exact Nd|exact Fd| |].
    + intros h t' E Nh Nt.
      destruct (strip_prefix "</p>" (t' ++ "</p>" ++ rest)) as [r|] eqn:S;
        [|reflexivity].
      exfalso. destruct (closing_p_inside _ _ _ S Nt) as [r' S'].
      rewrite E in Cd. apply contains_suffix in Cd. congruence.
    + cbv beta. change ("" ++ d) with d. rewrite strip_prefix_app.
      reflexivity.
Qed.

Lemma scan_match p bol s m g r :
  match_at p bol s = Some (m, g, r) ->
  scan p bol s = inr g :: scan p (ends_with_nl m) r.
Proof.
  intros H. destruct s as [|c s].
  - apply match_at_split in H. destruct H as [E N].
    destruct m; [congruence|discriminate].
  - now rewrite scan_cons, H.
Qed.

Lemma findall_paragraphs pairs bol :
  forallb well_formed pairs = true ->
  groups (scan member bol (join ", " (map paragraph_of pairs) ++ "]")) =
  map (fun p => [fst p; snd p]) pairs.
Proof.
  revert bol; induction pairs as [|[n d] ps IH]; intros bol W.
  - cbn [map join append]. rewrite scan_cons. cbn. now simp scan.
  - cbn [forallb] in W. apply andb_prop in W. destruct W as [W Ws].
    unfold well_formed in W. cbn [fst snd] in W.
    apply andb_prop in W. destruct W as [Wn Wd].
    cbn [map fst snd]. unfold paragraph_of at 1. cbn [fst snd].
    destruct ps as [|q ps].
    + cbn [map join].
      rewrite (scan_match member bol _ _ _ _
                 (match_member_paragraph bol n d "]" Wn Wd)).
      cbn [groups]. f_equal; try (rewrite scan_cons; cbn; now simp scan).
    + rewrite join_cons by discriminate. rewrite !append_assoc.
      rewrite (scan_match member bol _ _ _ _
                 (match_member_paragraph bol n d _ Wn Wd)).
      cbn [groups]. f_equal.
      change (", " ++ join ", " (map paragraph_of (q :: ps)) ++ "]")
        with (String "," (String " "
                (join ", " (map paragraph_of (q :: ps)) ++ "]"))).
      rewrite scan_cons.
      change (match_at member (ends_with_nl (paragraph n d))
                (String "," (String " "
                   (join ", " (map paragraph_of (q :: ps)) ++ "]"))))
        with (@None (string * list string * string)).
      cbv iota. cbn [groups]. rewrite scan_cons.
      change (match_at member (Ascii.eqb "," nl)
                (String " " (join ", " (map paragraph_of (q :: ps)) ++ "]")))
        with (@None (string * list string * string)).
      cbv iota. cbn [groups]. apply IH. exact Ws.
Qed.

(** X9.  On a page of well-formed paragraphs (a name in bold without
    [</b>], then a description without [</p>], both on one line and not
    empty) the pattern extracts exactly the name and the description of every
    paragraph, in order, and the scraped table has one row for each paragraph
    but the first: the name as it stands, and the description without its
    tags, whitespace and commas. *)
Theorem scrape_reads_the_paragraphs w pairs :
  hall_of_fame_page w = inr (Some (map paragraph_of pairs)) ->
  forallb well_formed pairs = true ->
  scraped_pairs w = Some (map (fun p => [fst p; snd p]) pairs)
  /\ scrape_hall_of_fame w =
     inr (DataFrame_of_pairs "name" "category"
            (map (fun p => (Some (fst p), Some (category_text (snd p))))
                 (tl pairs))).
Proof.
  intros P W.
  assert (F : re_findall member (str_tags (map paragraph_of pairs))
              = map (fun p => [fst p; snd p]) pairs).
  { unfold re_findall, str_tags.
    change ("[" ++ join ", " (map paragraph_of pairs) ++ "]")
      with (String "[" (join ", " (map paragraph_of pairs) ++ "]")).
    rewrite scan_cons.
    change (match_at member true
              (String "[" (join ", " (map paragraph_of pairs) ++ "]")))
      with (@None (string * list string * string)).
    cbv iota. cbn [groups]. now apply findall_paragraphs. }
  split.
  - unfold scraped_pairs. now rewrite P, F.
  - unfold scrape_hall_of_fame. rewrite P. cbn [bind]. rewrite F.
    unfold ok. f_equal. f_equal. destruct pairs as [|p ps]; [reflexivity|].
    cbn [map tl]. rewrite !map_map. apply map_ext. intros [n d].
    cbn [fst snd nth]. unfold category_text. now rewrite !re_sub_class.
Qed.

Lemma scrape_reads_the_paragraphs_witness :
  scraped_pairs page_world = Some (map (fun p => [fst p; snd p]) page_pairs)
  /\ scrape_hall_of_fame page_world =
     inr (DataFrame_of_pairs "name" "category"
            (map (fun p => (Some (fst p), Some (category_text (snd p))))
                 (tl page_pairs))).
Proof.
  apply (scrape_reads_the_paragraphs page_world page_pairs); reflexivity.
Defined.

(** * Properties of the correction *)

(** Replacing a text that does not occur changes nothing. *)
Lemma str_replace_absent old new s :
  old <> "" -> contains old s = false -> Py.str_replace old new s = s.
Proof.
  destruct old as [|c cs]; [congruence|]. intros _.
  unfold Py.str_replace, re_sub. generalize true.
  induction s as [|a s IH]; intros bol C; [now simp scan|].
  rewrite scan_cons.
  change (match_at (literal c cs) bol (String a s))
    with (match_literal c cs bol (String a s)).
  unfold match_literal.
  cbn [contains] in C.
  destruct (strip_prefix (String c cs) (String a s)); [discriminate|].
  cbn [emit]. now rewrite IH.
Qed.

Lemma correct_name_other r : misspelt (fst r) = false -> correct_name r = r.
Proof.
  destruct r as [[n|] c]; unfold correct_name;
    cbn [fst snd option_map misspelt]; [|reflexivity].
  intros C. now rewrite str_replace_absent.
Qed.

Lemma Forall2_combine_seq {A : Type}
  (R : nat * list cell -> nat * list cell -> Prop)
  (f g : A -> list cell) (l : list A) s :
  (forall i a, In a l -> R (i, f a) (i, g a)) ->
  Forall2 R (combine (seq s (List.length l)) (map f l))
            (combine (seq s (List.length l)) (map g l)).
Proof.
  revert s; induction l as [|a l IH]; intros s H;
    cbn [List.length seq map combine]; constructor.
  - apply H. now left.
  - apply IH. intros i b Hb. apply H. now right.
Qed.

(** X10.  The correction keeps the inductee table as the resolver returned
    it, row for row: the same columns, index labels and categories, and
    every row whose name does not hold the misspelling (or is NaN) as it
    was. *)
Theorem correction_keeps_other_rows w obj :
  __init__ w = inr obj ->
  exists df,
    resolved_fame w = inr df
    /\ columns (fame obj) = columns df
    /\ Forall2 (fun r r' =>
                  fst r' = fst r
                  /\ nth 1 (snd r') None = nth 1 (snd r) None
                  /\ (misspelt (nth 0 (snd r) None) = false -> r' = r))
         (rows df) (rows (fame obj)).
Proof.
  intros H. destruct (init_fame w obj H) as (records & R & F).
  eexists. split; [exact R|]. rewrite F.
  split; [reflexivity|]. unfold DataFrame_of_pairs. cbn [rows].
  rewrite length_map, map_map.
  apply Forall2_combine_seq. intros i r _. cbn [fst snd nth].
  split; [reflexivity|]. split; [reflexivity|].
  intros M. now rewrite correct_name_other.
Qed.

Lemma correction_keeps_other_rows_witness :
  exists df,
    resolved_fame issel_world = inr df
    /\ columns (fame issel_obj) = columns df
    /\ Forall2 (fun r r' =>
                  fst r' = fst r
                  /\ nth 1 (snd r') None = nth 1 (snd r) None
                  /\ (misspelt (nth 0 (snd r) None) = false -> r' = r))
         (rows df) (rows (fame issel_obj)).
Proof.
  apply (correction_keeps_other_rows issel_world issel_obj).
  vm_compute. reflexivity.
Defined.

(** * Properties of the rows of the difference *)

Lemma reported_inv values r :
  reported values r = true ->
  exists n, r = (Some n, Some "Player") /\ ~ In (Some n) values.
Proof.
  destruct r as [[n|] k]; unfold reported; cbn [fst snd isna negb andb];
    [|discriminate].
  intros R. repeat (apply andb_prop in R; destruct R as [R ?]).
  match goal with H : cell_eqb k _ = true |- _ =>
    apply cell_eqb_eq in H; subst k end.
  exists n. split; [reflexivity|]. intros Hin. apply isin_In in Hin.
  match goal with H : negb (isin values (Some n)) = true |- _ =>
    rewrite Hin in H; discriminate H end.
Qed.

(** A row of the table: one inductee of category Player, named in the column
    of each dataset that reports it, and reported by at least one. *)
Lemma missing_table_row records pvals svals r :
  In r (rows (missing_table records pvals svals)) ->
  exists n,
    In (Some n, Some "Player") records
    /\ snd r = [if reported pvals (Some n, Some "Player") then Some n else None;
                if reported svals (Some n, Some "Player") then Some n else None]
    /\ (reported pvals (Some n, Some "Player")
        || reported svals (Some n, Some "Player"))%bool = true.
Proof.
  intros Hr. apply (in_map snd) in Hr. unfold missing_table in Hr.
  rewrite (proj2 (reset_index_rows _)) in Hr. cbn [rename rows] in Hr.
  unfold side_by_side in Hr. rewrite map_app, !map_map in Hr. cbn [snd] in Hr.
  apply in_app_or in Hr.
  destruct Hr as [Hr|Hr]; apply in_map_iff in Hr;
    destruct Hr as ([i x] & E & He); apply filter_In in He;
    destruct He as [He B]; unfold indexed in He; apply in_combine_r in He;
    unfold reported_at, name_of in *; cbn [fst snd] in *.
  - pose proof (reported_inv _ _ B) as (n & -> & _). exists n.
    cbn [fst] in E. rewrite B. cbn [orb]. auto.
  - apply andb_prop in B. destruct B as [B1 B2]. apply negb_true_iff in B2.
    pose proof (reported_inv _ _ B1) as (n & -> & _). exists n.
    cbn [fst] in E. rewrite B1, B2. cbn [orb]. auto.
Qed.

Lemma filter_split_length {A : Type} (p q : A -> bool) (l : list A) :
  List.length (filter p l)
  + List.length (filter (fun a => (q a && negb (p a))%bool) l)
  = List.length (filter (fun a => (p a || q a)%bool) l).
Proof.
  induction l as [|a l IH]; [reflexivity|].
  cbn [filter]. destruct (p a), (q a); cbn [andb orb negb List.length]; lia.
Qed.

Lemma filter_combine_length {A B : Type} (f : A * B -> bool) (g : B -> bool)
  (la : list A) (lb : list B) :
  (forall a b, f (a, b) = true -> g b = true) ->
  List.length (filter f (combine la lb)) <= List.length (filter g lb).
Proof.
  intros I. revert la; induction lb as [|b lb IH]; intros [|a la];
    cbn [combine filter List.length]; try lia.
  specialize (IH la). destruct (f (a, b)) eqn:F.
  - rewrite (I a b F). cbn [List.length]. lia.
  - destruct (g b); cbn [List.length]; lia.
Qed.

Lemma missing_table_length records pvals svals :
  List.length (rows (missing_table records pvals svals))
  <= List.length (inductee_players (DataFrame_of_pairs "name" "category" records)).
Proof.
  rewrite inductee_players_pairs, length_map.
  unfold missing_table, reset_index. cbn [rows rename].
  rewrite length_combine, length_seq, !length_map, Nat.min_id.
  unfold side_by_side. rewrite length_app, !length_map, filter_split_length.
  unfold indexed. apply filter_combine_length. intros i x B.
  unfold reported_at in B. cbn [snd] in B.
  apply orb_prop in B. destruct B as [B|B];
    apply reported_inv in B; destruct B as (n & -> & _); reflexivity.
Qed.

(** What a constructed object gives the difference. *)
Lemma init_missing w obj :
  __init__ w = inr obj ->
  exists records (pc sc pv : Series string),
    fame obj = DataFrame_of_pairs "name" "category" records
    /\ column "player" (players obj) = inr pc
    /\ column "player" (stats obj) = inr sc
    /\ missing_hall_of_fame obj =
       inr (missing_table records (tolist pv) (unique sc))
    /\ forall n, In (Some n, Some "Player") records ->
         ~ In (Some n) (tolist pv) -> ~ In (Some n) (tolist pc).
Proof.
  intros H.
  destruct (init_inv w obj H) as (records1 & _ & L).
  set (records := map correct_name records1) in *.
  pose proof (load_data_inv _ _ _ L) as I.
  destruct I as (ptext & praw & p1 & pcol & stext & sraw & s1 & scol & fp
                 & names & pc & sc & _ & _ & _ & _ & _ & _ & _ & _ & _ & _
                 & Q & N & Cpc & Csc & F & PF & _).
  assert (IP : inductee_players (fame obj) = tolist names).
  { unfold inductee_players. now rewrite F, Q, N. }
  assert (Cpv : column "player" (players_fame obj)
                = inr (filter (fun v => isin (tolist names) (snd v)) pc))
    by (rewrite PF; apply (column_loc_isin _ _ _ _ Cpc)).
  exists records, pc, sc. eexists. split; [exact F|].
  split; [exact Cpc|]. split; [exact Csc|].
  split; [apply (missing_hall_of_fame_table _ _ _ _ F Cpv Csc)|].
  intros n Hr Hn Hin. apply Hn.
  unfold tolist in Hin |- *. apply in_map_iff in Hin.
  destruct Hin as ([i c] & E & Hin). cbn [snd] in E. subst c.
  apply in_map_iff. exists (i, Some n). split; [reflexivity|].
  apply filter_In. split; [exact Hin|]. cbn [snd].
  apply isin_In. unfold tolist in IP. rewrite <- IP, F.
  now apply inductee_players_In.
Qed.

(** X11.  On a constructed object [missing_hall_of_fame] returns a table,
    and what it reports is right whatever the datasets hold: a name in the
    column [player_dataset] is the name of an inductee of category Player
    that no row of the biography table has, and a name in the column
    [stats_dataset] is the name of an inductee of category Player that no row
    of the stats table has. *)
Theorem missing_hall_of_fame_sound w obj :
  __init__ w = inr obj ->
  exists pc sc df,
    column "player" (players obj) = inr pc
    /\ column "player" (stats obj) = inr sc
    /\ missing_hall_of_fame obj = inr df
    /\ forall r n,
         In r (rows df) ->
         (nth 0 (snd r) None = Some n ->
          In (Some n) (inductee_players (fame obj))
          /\ ~ In (Some n) (tolist pc))
         /\ (nth 1 (snd r) None = Some n ->
             In (Some n) (inductee_players (fame obj))
             /\ ~ In (Some n) (tolist sc)).
Proof.
  intros H.
  destruct (init_missing w obj H)
    as (records & pc & sc & pv & F & Cpc & Csc & T & K).
  exists pc, sc. eexists. split; [exact Cpc|]. split; [exact Csc|].
  split; [exact T|]. intros r n Hr.
  destruct (missing_table_row _ _ _ _ Hr) as (m & Hm & -> & _).
  rewrite F. cbn [nth]. split.
  - destruct (reported (tolist pv) (Some m, Some "Player")) eqn:R;
      [|discriminate]. intros [= ->].
    apply reported_inv in R. destruct R as (n' & [= <-] & Hn).
    split; [now apply inductee_players_In|now apply K].
  - destruct (reported (unique sc) (Some m, Some "Player")) eqn:R;
      [|discriminate]. intros [= ->].
    apply reported_inv in R. destruct R as (n' & [= <-] & Hn).
    split; [now apply inductee_players_In|]. now rewrite <- unique_In.
Qed.

Lemma missing_hall_of_fame_sound_witness :
  exists pc sc df,
    column "player" (players two_players_obj) = inr pc
    /\ column "player" (stats two_players_obj) = inr sc
    /\ missing_hall_of_fame two_players_obj = inr df
    /\ forall r n,
         In r (rows df) ->
         (nth 0 (snd r) None = Some n ->
          In (Some n) (inductee_players (fame two_players_obj))
          /\ ~ In (Some n) (tolist pc))
         /\ (nth 1 (snd r) None = Some n ->
             In (Some n) (inductee_players (fame two_players_obj))
             /\ ~ In (Some n) (tolist sc)).
Proof.
  apply (missing_hall_of_fame_sound two_players_world two_players_obj).
  vm_compute. reflexivity.
Defined.

(** X12.  Every row of the table of [missing_hall_of_fame] is about one
    inductee of category Player: it holds the name in one column and NaN in
    the other, or the name in both, and never NaN in both; and the table has
    no more rows than there are inductees of category Player. *)
Theorem missing_hall_of_fame_rows w obj :
  __init__ w = inr obj ->
  exists df,
    missing_hall_of_fame obj = inr df
    /\ (forall r, In r (rows df) ->
          exists n,
            In (Some n) (inductee_players (fame obj))
            /\ (snd r = [Some n; None] \/ snd r = [None; Some n]
                \/ snd r = [Some n; Some n]))
    /\ List.length (rows df) <= List.length (inductee_players (fame obj)).
Proof.
  intros H.
  destruct (init_missing w obj H)
    as (records & pc & sc & pv & F & _ & _ & T & _).
  eexists. split; [exact T|]. rewrite F. split.
  - intros r Hr. destruct (missing_table_row _ _ _ _ Hr) as (n & Hn & -> & B).
    exists n. split; [now apply inductee_players_In|].
    destruct (reported (tolist pv) _), (reported (unique sc) _);
      try discriminate; auto.
  - apply missing_table_length.
Qed.

Lemma missing_hall_of_fame_rows_witness :
  exists df,
    missing_hall_of_fame two_players_obj = inr df
    /\ (forall r, In r (rows df) ->
          exists n,
            In (Some n) (inductee_players (fame two_players_obj))
            /\ (snd r = [Some n; None] \/ snd r = [None; Some n]
                \/ snd r = [Some n; Some n]))
    /\ List.length (rows df)
       <= List.length (inductee_players (fame two_players_obj)).
Proof.
  apply (missing_hall_of_fame_rows two_players_world two_players_obj).
  vm_compute. reflexivity.
Defined.
